(** * Disaster-response ETL pipeline: [data/process_data.py]

    A shallow embedding of the four functions of [process_data.py]
    ([load_data], [clean_data], [save_data], [main]) together with the part
    of Python and pandas they call, followed by the properties of the
    pipeline that the specification states.

    Conventions.
    - A Python [str] is modelled as the [string] of its UTF-8 encoding.
    - A pandas column is either an object column holding strings or missing
      values ([None]/[NaN], both [None] here) or an [int64] column.
      Floating-point columns are outside the model.
    - A raised exception is a value [Raise e]; the code never catches one.
    - [clean_data] mutates the table it is given ([inplace=True]), so it is
      a computation over the caller's table object. *)

From Stdlib Require Import String Ascii NArith ZArith Bool Arith Lia List.
Import ListNotations.
Open Scope string_scope.
Open Scope list_scope.

Set Implicit Arguments.

(* ================================================================= *)
(** ** Python builtins *)

Module Py.

Inductive exn : Type :=
| AttributeError
| IndexError
| KeyError
| ValueError
| TypeError
| OverflowError
| MergeError
| FileNotFoundError
| OperationalError.

Inductive result (A : Type) : Type :=
| Ok (a : A)
| Raise (e : exn).

Arguments Ok {A} a.
Arguments Raise {A} e.

Definition bind {A B} (c : result A) (k : A -> result B) : result B :=
  match c with
  | Ok a => k a
  | Raise e => Raise e
  end.

(** [[f(x) for x in l]], stopping at the first exception. *)
Fixpoint mapM {A B} (f : A -> result B) (l : list A) : result (list B) :=
  match l with
  | [] => Ok []
  | x :: r =>
      bind (f x) (fun y => bind (mapM f r) (fun ys => Ok (y :: ys)))
  end.

(** State-and-exception computations: the state is whatever mutable
    object (or output trace) the Python function acts on. *)
Definition M (S A : Type) : Type := S -> S * result A.

Definition ret {S A} (a : A) : M S A := fun s => (s, Ok a).

Definition mbind {S A B} (c : M S A) (k : A -> M S B) : M S B :=
  fun s =>
    match c s with
    | (s', Ok a) => k a s'
    | (s', Raise e) => (s', Raise e)
    end.

Definition get {S} : M S S := fun s => (s, Ok s).
Definition put {S} (s : S) : M S unit := fun _ => (s, Ok tt).
Definition lift {S A} (r : result A) : M S A := fun s => (s, r).

(** [s.split(sep)] for a one-character separator. *)
Fixpoint split (sep : ascii) (s : string) : list string :=
  match s with
  | EmptyString => [EmptyString]
  | String c r =>
      if Ascii.eqb c sep then EmptyString :: split sep r
      else match split sep r with
           | [] => [String c EmptyString]
           | h :: t => String c h :: t
           end
  end.

(** A [str] is a sequence of code points; the model keeps its UTF-8
    encoding, in which [split] on an ASCII separator cuts where Python
    cuts.  [code_points] reads the code points back, and gives [None] on
    bytes that encode no [str]. *)
Definition continuation (c : ascii) : option N :=
  let n := N_of_ascii c in
  if ((128 <=? n) && (n <? 192))%N then Some (n - 128)%N else None.

Fixpoint code_points (s : string) : option (list N) :=
  match s with
  | EmptyString => Some []
  | String a r =>
      let n := N_of_ascii a in
      if (n <? 128)%N then option_map (cons n) (code_points r)
      else if (n <? 192)%N then None
      else if (n <? 224)%N then
        match r with
        | String b r1 =>
            match continuation b with
            | Some x =>
                let cp := ((n - 192) * 64 + x)%N in
                if (128 <=? cp)%N then option_map (cons cp) (code_points r1)
                else None
            | None => None
            end
        | _ => None
        end
      else if (n <? 240)%N then
        match r with
        | String b (String c r2) =>
            match continuation b, continuation c with
            | Some x, Some y =>
                let cp := (((n - 224) * 64 + x) * 64 + y)%N in
                if ((2048 <=? cp) && negb ((55296 <=? cp) && (cp <=? 57343)))%N
                then option_map (cons cp) (code_points r2)
                else None
            | _, _ => None
            end
        | _ => None
        end
      else if (n <? 248)%N then
        match r with
        | String b (String c (String d r3)) =>
            match continuation b, continuation c, continuation d with
            | Some x, Some y, Some z =>
                let cp := ((((n - 240) * 64 + x) * 64 + y) * 64 + z)%N in
                if ((65536 <=? cp) && (cp <=? 1114111))%N
                then option_map (cons cp) (code_points r3)
                else None
            | _, _, _ => None
            end
        | _ => None
        end
      else None
  end.

(** White space beyond ASCII ([Py_UNICODE_ISSPACE]): NEL, NBSP, OGHAM
    SPACE MARK, U+2000..U+200A, LINE and PARAGRAPH SEPARATOR, U+202F,
    U+205F and IDEOGRAPHIC SPACE. *)
Definition unicode_space (cp : N) : bool :=
  ((cp =? 133) || (cp =? 160) || (cp =? 5760)
   || ((8192 <=? cp) && (cp <=? 8202))
   || (cp =? 8232) || (cp =? 8233) || (cp =? 8239) || (cp =? 8287)
   || (cp =? 12288))%N.

(** The digit zero of every run of ten decimal digits (general category
    Nd) of Unicode 14.0, the character database of CPython 3.11. *)
Definition decimal_zeros : list N :=
  [48; 1632; 1776; 1984; 2406; 2534; 2662; 2790; 2918; 3046; 3174; 3302;
   3430; 3558; 3664; 3792; 3872; 4160; 4240; 6112; 6160; 6470; 6608; 6784;
   6800; 6992; 7088; 7232; 7248; 42528; 43216; 43264; 43472; 43504; 43600;
   44016; 65296; 66720; 68912; 69734; 69872; 69942; 70096; 70384; 70736;
   70864; 71248; 71360; 71472; 71904; 72016; 72784; 73040; 73120; 92768;
   92864; 93008; 120782; 120792; 120802; 120812; 120822; 123200; 123632;
   125264; 130032]%N.

(** [Py_UNICODE_TODECIMAL] *)
Definition unicode_decimal (cp : N) : option N :=
  match find (fun z => (z <=? cp) && (cp <? z + 10))%N decimal_zeros with
  | Some z => Some (cp - z)%N
  | None => None
  end.

(** What [int()] first does to a [str] that is not ASCII: white space
    becomes a space, a decimal digit its ASCII digit, and any other
    character beyond ASCII a question mark, which no number has. *)
Definition to_ascii (cp : N) : N :=
  if (cp <? 127)%N then cp
  else if unicode_space cp then 32%N
  else match unicode_decimal cp with
       | Some d => (48 + d)%N
       | None => 63%N
       end.

(** ASCII white space as the parser skips it ([Py_ISSPACE]): TAB, LF, VT,
    FF, CR, SPACE. *)
Definition isspace (c : N) : bool :=
  (((9 <=? c) && (c <=? 13)) || (c =? 32))%N.

Fixpoint lstrip (l : list N) : list N :=
  match l with
  | [] => []
  | c :: r => if isspace c then lstrip r else l
  end.

Definition digit_of (c : N) : option Z :=
  if ((48 <=? c) && (c <=? 57))%N then Some (Z.of_N (c - 48)) else None.

(** Decimal digits with single underscores allowed between digits (PEP
    515), up to the first character that is neither: the value read, the
    number of digits, and what follows.  [after_digit] tells whether the
    previous character was a digit. *)
Fixpoint digits_value (acc : Z) (digits : nat) (after_digit : bool)
    (l : list N) : option (Z * nat * list N) :=
  match l with
  | [] => if after_digit then Some (acc, digits, []) else None
  | c :: r =>
      match digit_of c with
      | Some d => digits_value (10 * acc + d)%Z (S digits) true r
      | None =>
          if (c =? 95)%N
          then if after_digit then digits_value acc digits false r else None
          else if after_digit then Some (acc, digits, l) else None
      end
  end.

(** [sys.get_int_max_str_digits()] as CPython 3.11 starts with: a string
    of more digits is not converted. *)
Definition int_max_str_digits : nat := 4300.

(** [int(s)], base 10: surrounding white space, an optional sign, then
    the digits, of any script.  Anything else is a [ValueError]; so are,
    here, bytes that encode no [str]. *)
Definition int (s : string) : result Z :=
  match code_points s with
  | None => Raise ValueError
  | Some cps =>
      let t := lstrip (map to_ascii cps) in
      let '(neg, body) :=
        match t with
        | c :: r =>
            if (c =? 43)%N then (false, r)
            else if (c =? 45)%N then (true, r)
            else (false, t)
        | [] => (false, t)
        end in
      match digits_value 0 0 false body with
      | Some (v, digits, rest) =>
          match lstrip rest with
          | [] =>
              if (digits <=? int_max_str_digits)%nat
              then Ok (if neg then (- v)%Z else v)
              else Raise ValueError
          | _ :: _ => Raise ValueError
          end
      | None => Raise ValueError
      end
  end.

(** Line feed, for the messages that [main] prints. *)
Definition nl : string := String (ascii_of_nat 10) EmptyString.

End Py.

Import Py.

Notation "x <- c ;; k" := (Py.bind c (fun x => k))
  (at level 61, c at next level, right associativity).
Notation "x <~ c ;; k" := (Py.mbind c (fun x => k))
  (at level 61, c at next level, right associativity).

(* ================================================================= *)
(** ** The part of pandas that the pipeline uses *)

Module Pandas.

(** A column: object dtype (strings, with [None] for a missing value) or
    [int64]. *)
Inductive Series : Type :=
| ObjCol (l : list (option string))
| IntCol (l : list Z).

(** A cell, whatever the dtype of its column. *)
Inductive value : Type :=
| VStr (s : string)
| VInt (z : Z)
| NaN.

Definition value_eq_dec (a b : value) : {a = b} + {a <> b}.
Proof.
  decide equality; [apply string_dec | apply Z.eq_dec].
Defined.

Definition key_eq_dec : forall a b : list value, {a = b} + {a <> b} :=
  list_eq_dec value_eq_dec.

Definition values (s : Series) : list value :=
  match s with
  | ObjCol l =>
      map (fun c => match c with Some x => VStr x | None => NaN end) l
  | IntCol l => map VInt l
  end.

(** Row labels (the index) and the labelled columns, left to right.
    Labels may repeat, as pandas allows. *)
Record DataFrame : Type := mkDataFrame {
  index : list Z;
  columns : list (string * Series)
}.

Definition labels (df : DataFrame) : list string := map fst (columns df).

Definition mem (x : string) (l : list string) : bool :=
  existsb (String.eqb x) l.

(** [df[name]] / [df.name]: every column carrying the label.  One column
    is a Series, several are a DataFrame; what none means depends on the
    access. *)
Definition getitem (name : string) (df : DataFrame) : list Series :=
  map snd (filter (fun c => String.eqb (fst c) name) (columns df)).

(** [df.name]: attribute access finds a column label or fails. *)
Definition getattr (name : string) (df : DataFrame) : result (list Series) :=
  match getitem name df with
  | [] => Raise AttributeError
  | sel => Ok sel
  end.

(** [.str]: only a Series has the accessor, and only one of strings. *)
Definition str (sel : list Series) : result (list (option string)) :=
  match sel with
  | [ObjCol l] => Ok l
  | _ => Raise AttributeError
  end.

(** The frame that [.str.split(sep, expand=True)] returns: the index of
    the Series and columns labelled 0, 1, ... by position. *)
Record Expanded : Type := mkExpanded {
  e_index : list Z;
  e_columns : list (list (option string))
}.

Definition width (parts : list (option (list string))) : nat :=
  list_max
    (map (fun p => match p with Some ts => length ts | None => 1 end) parts).

(** Column [j] holds the [j]-th token of each row; rows with fewer tokens
    and missing rows are padded with missing values up to the longest
    row. *)
Definition str_split_expand (sep : ascii) (idx : list Z)
    (cells : list (option string)) : Expanded :=
  let parts := map (option_map (split sep)) cells in
  mkExpanded idx
    (map (fun j =>
            map (fun p => match p with
                          | Some ts => nth_error ts j
                          | None => None
                          end) parts)
         (seq 0 (width parts))).

(** [frame.iloc[0, :]] *)
Definition iloc0 (e : Expanded) : result (list (option string)) :=
  match e_index e with
  | [] => Raise IndexError
  | _ :: _ =>
      Ok (map (fun c => match c with x :: _ => x | [] => None end)
              (e_columns e))
  end.

(** [frame.columns = names] *)
Definition set_columns (names : list string) (e : Expanded)
  : result DataFrame :=
  if (length names =? length (e_columns e))%nat
  then Ok (mkDataFrame (e_index e)
             (combine names (map ObjCol (e_columns e))))
  else Raise ValueError.

(** [df[name] = s] for a label that is present: the column is replaced
    where it stands; otherwise it is appended. *)
Definition setitem (name : string) (s : Series) (df : DataFrame)
  : DataFrame :=
  if mem name (labels df)
  then mkDataFrame (index df)
         (map (fun c => if String.eqb (fst c) name then (name, s) else c)
              (columns df))
  else mkDataFrame (index df) (columns df ++ [(name, s)]).

(** [series.str.split(sep).str[i]] on one cell *)
Definition str_split_get (sep : ascii) (i : nat) (cell : option string)
  : option string :=
  match cell with
  | Some t => nth_error (split sep t) i
  | None => None
  end.

Definition int64_min : Z := (- 2 ^ 63)%Z.
Definition int64_max : Z := (2 ^ 63 - 1)%Z.

(** One cell of [astype(int)] on an object column: [int()] of the
    string, which must fit [int64]; a missing value cannot be converted. *)
Definition to_int64 (cell : option string) : result Z :=
  match cell with
  | None => Raise ValueError
  | Some t =>
      z <- Py.int t ;;
      if ((int64_min <=? z) && (z <=? int64_max))%Z then Ok z
      else Raise OverflowError
  end.

(** [series.astype(int)] *)
Definition astype_int (s : Series) : result Series :=
  match s with
  | IntCol l => Ok (IntCol l)
  | ObjCol l => v <- mapM to_int64 l ;; Ok (IntCol v)
  end.

Definition clip1 (lower upper z : Z) : Z := Z.min upper (Z.max lower z).

(** [df.clip(lower, upper)]: defined on numeric columns. *)
Definition clip (lower upper : Z) (df : DataFrame) : result DataFrame :=
  cs <- mapM (fun c => match snd c with
                       | IntCol l =>
                           Ok (fst c, IntCol (map (clip1 lower upper) l))
                       | ObjCol _ => Raise TypeError
                       end) (columns df) ;;
  Ok (mkDataFrame (index df) cs).

(** [len(series.unique())] *)
Definition nunique (s : Series) : nat :=
  length (nodup value_eq_dec (values s)).

(** [df.drop(names, axis=1)]: every column carrying one of the labels
    goes; an absent label is a [KeyError]. *)
Definition drop (names : list string) (df : DataFrame)
  : result DataFrame :=
  if forallb (fun n => mem n (labels df)) names
  then Ok (mkDataFrame (index df)
             (filter (fun c => negb (mem (fst c) names)) (columns df)))
  else Raise KeyError.

(** [pd.concat([a, b], axis=1)] for two frames over the same index: the
    columns of [b] follow those of [a]; labels are not checked. *)
Definition concat_axis1 (a b : DataFrame) : DataFrame :=
  mkDataFrame (index a) (columns a ++ columns b).

(** The rows of some columns, read off cell by cell. *)
Fixpoint rows (n : nat) (cols : list (list value)) : list (list value) :=
  match n with
  | O => []
  | S m => map (hd NaN) cols :: rows m (map (@tl value) cols)
  end.

(** [df[mask]] on one column. *)
Fixpoint select {A} (mask : list bool) (l : list A) : list A :=
  match mask, l with
  | b :: m, x :: r => if b then x :: select m r else select m r
  | _, _ => []
  end.

Definition select_series (mask : list bool) (s : Series) : Series :=
  match s with
  | ObjCol l => ObjCol (select mask l)
  | IntCol l => IntCol (select mask l)
  end.

Definition select_rows (mask : list bool) (df : DataFrame) : DataFrame :=
  mkDataFrame (select mask (index df))
    (map (fun c => (fst c, select_series mask (snd c))) (columns df)).

(** [duplicated(keep='first')] on the key of each row: true where the
    key already occurred above.  Missing values compare equal. *)
Fixpoint duplicated_keys (seen : list (list value))
    (keys : list (list value)) : list bool :=
  match keys with
  | [] => []
  | k :: r =>
      (if in_dec key_eq_dec k seen then true else false)
        :: duplicated_keys (k :: seen) r
  end.

(** The key columns are all the columns whose label is in [subset]. *)
Definition key_columns (subset : list string) (df : DataFrame)
  : list (list value) :=
  map (fun c => values (snd c))
      (filter (fun c => mem (fst c) subset) (columns df)).

Definition row_keys (subset : list string) (df : DataFrame)
  : list (list value) :=
  rows (length (index df)) (key_columns subset df).

Definition duplicated (subset : list string) (df : DataFrame)
  : list bool :=
  duplicated_keys [] (row_keys subset df).

(** [df.empty] *)
Definition empty (df : DataFrame) : bool :=
  match index df, columns df with
  | [], _ => true
  | _, [] => true
  | _, _ => false
  end.

(** [df.drop_duplicates(subset=...)]: an empty frame is returned as it
    is; otherwise every label of [subset] must be present, and the rows
    whose key is not a repetition are kept, with their index labels. *)
Definition drop_duplicates (subset : list string) (df : DataFrame)
  : result DataFrame :=
  if empty df then Ok df
  else if forallb (fun n => mem n (labels df)) subset
  then Ok (select_rows (map negb (duplicated subset df)) df)
  else Raise KeyError.

(** [series.take(positions)] *)
Definition take (positions : list nat) (s : Series) : Series :=
  match s with
  | ObjCol l => ObjCol (map (fun i => nth i l None) positions)
  | IntCol l => IntCol (map (fun i => nth i l 0%Z) positions)
  end.

Definition same_dtype (a b : Series) : bool :=
  match a, b with
  | ObjCol _, ObjCol _ => true
  | IntCol _, IntCol _ => true
  | _, _ => false
  end.

Definition RangeIndex (n : nat) : list Z := map Z.of_nat (seq 0 n).

(** The labels two frames have in common, in the order of the first. *)
Definition common_labels (left right : DataFrame) : list string :=
  nodup string_dec (filter (fun n => mem n (labels right)) (labels left)).

(** The join key of each row: its values under the labels joined on. *)
Definition join_keys (on_ : list string) (df : DataFrame)
  : list (list value) :=
  rows (length (index df))
       (flat_map (fun n => map values (getitem n df)) on_).

(** The positions [(i, j)] of the rows that match, those of the left
    frame in order and, for each, those of the right frame in order.
    Missing values match each other. *)
Definition join_pairs (lkeys rkeys : list (list value))
  : list (nat * nat) :=
  flat_map (fun i =>
              map (fun j => (i, j))
                  (filter (fun j =>
                             if key_eq_dec (nth i lkeys []) (nth j rkeys [])
                             then true else false)
                          (seq 0 (length rkeys))))
           (seq 0 (length lkeys)).

Definition key_dtypes_agree (on_ : list string) (left right : DataFrame)
  : bool :=
  let nl := length (index left) in
  let nr := length (index right) in
  forallb (fun n =>
             match getitem n left, getitem n right with
             | [a], [b] => same_dtype a b || Nat.eqb nl 0 || Nat.eqb nr 0
             | _, _ => false
             end) on_.

(** [left.merge(right)]: inner join on the labels the two frames have in
    common.  No common label, or a common label that repeats in a frame,
    is a [MergeError]; key columns of different dtypes in two frames that
    both have rows are a [ValueError].  The columns of the result are
    those of [left], then those of [right] that are not keys; its index
    counts the matches. *)
Definition merge (left right : DataFrame) : result DataFrame :=
  let on_ := common_labels left right in
  match on_ with
  | [] => Raise MergeError
  | _ :: _ =>
      if negb (forallb (fun n =>
                 (length (getitem n left) =? 1)%nat
                 && (length (getitem n right) =? 1)%nat) on_)
      then Raise MergeError
      else if negb (key_dtypes_agree on_ left right)
      then Raise ValueError
      else
        let pairs := join_pairs (join_keys on_ left)
                                (join_keys on_ right) in
        Ok (mkDataFrame (RangeIndex (length pairs))
              (map (fun c => (fst c, take (map fst pairs) (snd c)))
                   (columns left)
               ++ map (fun c => (fst c, take (map snd pairs) (snd c)))
                   (filter (fun c => negb (mem (fst c) on_))
                           (columns right))))
  end.

End Pandas.

Import Pandas.

(* ================================================================= *)
(** ** [process_data.py] *)

Module ProcessData.

(** What a run does to the outside world, in order: files read, lines
    printed, tables written. *)
Inductive event : Type :=
| ReadCsv (path : string)
| Print (text : string)
| ToSql (url table : string) (df : DataFrame).

Definition trace : Type := list event.

Definition emit (e : event) : M trace unit :=
  fun t => (t ++ [e], Ok tt).

Definition print (text : string) : M trace unit := emit (Print text).

(** [x.split('-')[0]] in the lambda of line 49; a missing cell has no
    [split]. *)
Definition colname (x : option string) : result string :=
  match x with
  | None => Raise AttributeError
  | Some s =>
      match split "-" s with
      | h :: _ => Ok h
      | [] => Raise IndexError
      end
  end.

(** The body of the loop of lines 55-60, once per label of
    [categories]. *)
Fixpoint for_column (todo : list string) (categories : DataFrame)
  : result DataFrame :=
  match todo with
  | [] => Ok categories
  | column :: rest =>
      (* categories[column] = categories[column].str.split('-').str[1] *)
      cells <- str (getitem column categories) ;;
      let categories :=
        setitem column (ObjCol (map (str_split_get "-" 1) cells))
                categories in
      (* categories[column] = categories[column].astype(int) *)
      converted <- match getitem column categories with
                   | [s] => astype_int s
                   | _ => Raise AttributeError
                   end ;;
      let categories := setitem column converted categories in
      for_column rest categories
  end.

(** The comprehension of lines 66-68. *)
Fixpoint one_val (todo : list string) (categories : DataFrame)
  : result (list string) :=
  match todo with
  | [] => Ok []
  | column :: rest =>
      n <- match getitem column categories with
           | [s] => Ok (nunique s)
           | _ => Raise AttributeError
           end ;;
      r <- one_val rest categories ;;
      Ok (if (n =? 1)%nat then column :: r else r)
  end.

(** [clean_data(df)].  The state is the table object the caller passed:
    line 73 changes it in place. *)
Definition clean_data : M DataFrame DataFrame :=
  df <~ get ;;
  (* 41 *)
  cells <~ lift (sel <- getattr "categories" df ;; str sel) ;;
  let categories := str_split_expand ";" (index df) cells in
  (* 44 *)
  row <~ lift (iloc0 categories) ;;
  (* 49 *)
  category_colnames <~ lift (mapM colname row) ;;
  (* 52 *)
  categories <~ lift (set_columns category_colnames categories) ;;
  (* 55-60 *)
  categories <~ lift (for_column (labels categories) categories) ;;
  (* 63 *)
  categories <~ lift (clip 0 1 categories) ;;
  (* 66-70 *)
  one_val_cols <~ lift (one_val (labels categories) categories) ;;
  categories <~ lift (drop one_val_cols categories) ;;
  (* 73 *)
  dropped <~ lift (drop ["categories"] df) ;;
  _ <~ put dropped ;;
  df <~ get ;;
  (* 76 *)
  let df := concat_axis1 df categories in
  (* 79 *)
  lift (drop_duplicates ["message"; "original"] df).

Definition usage : string :=
  ("Please provide the filepaths of the messages and categories "
   ++ "datasets as the first and second argument respectively, as "
   ++ "well as the filepath of the database to save the cleaned data "
   ++ "to as the third argument. " ++ nl ++ nl
   ++ "Example: python process_data.py "
   ++ "disaster_messages.csv disaster_categories.csv "
   ++ "DisasterResponse.db")%string.

Section Pipeline.

(** The files of the run, as [pd.read_csv] parses them, and the
    database engine behind [to_sql(..., if_exists='replace')]. *)
Variable read_csv : string -> result DataFrame.
Variable to_sql : string -> string -> DataFrame -> result unit.

Definition pd_read_csv (path : string) : M trace DataFrame :=
  _ <~ emit (ReadCsv path) ;;
  lift (read_csv path).

Definition load_data (messages_filepath categories_filepath : string)
  : M trace DataFrame :=
  messages <~ pd_read_csv messages_filepath ;;
  categories <~ pd_read_csv categories_filepath ;;
  df <~ lift (merge messages categories) ;;
  ret df.

Definition save_data (df : DataFrame) (database_filename : string)
  : M trace unit :=
  let db_name := ("sqlite:///" ++ database_filename)%string in
  _ <~ emit (ToSql db_name "DisasterResponse" df) ;;
  lift (to_sql db_name "DisasterResponse" df).

(** [main()], given [sys.argv]. *)
Definition main (argv : list string) : M trace unit :=
  if (length argv =? 4)%nat then
    match tl argv with
    | [messages_filepath; categories_filepath; database_filepath] =>
        _ <~ print ("Loading data..." ++ nl
                    ++ "    MESSAGES: " ++ messages_filepath ++ nl
                    ++ "    CATEGORIES: " ++ categories_filepath)%string ;;
        df <~ load_data messages_filepath categories_filepath ;;
        _ <~ print "Cleaning data..." ;;
        df <~ lift (snd (clean_data df)) ;;
        _ <~ print ("Saving data..." ++ nl
                    ++ "    DATABASE: " ++ database_filepath)%string ;;
        _ <~ save_data df database_filepath ;;
        print "Cleaned data saved to database!"
    | _ => lift (Raise ValueError)
    end
  else
    print usage.

End Pipeline.

End ProcessData.

Import ProcessData.

(* ================================================================= *)
(** ** Sample tables *)

Module Samples.

Definition table (messages originals categories : list (option string))
  : DataFrame :=
  mkDataFrame (RangeIndex (length messages))
    [("message", ObjCol messages);
     ("original", ObjCol originals);
     ("categories", ObjCol categories)].

(** The third record repeats the first with other categories; [offer]
    is 1 everywhere; one [request] token carries a stray 2. *)
Definition three_rows : DataFrame :=
  table [Some "Help me"; Some "Water"; Some "Help me"]
        [Some "Aidez-moi"; None; Some "Aidez-moi"]
        [Some "related-1;request-0;offer-1";
         Some "related-0;request-2;offer-1";
         Some "related-0;request-1;offer-1"].

Definition three_rows_after : DataFrame :=
  mkDataFrame [0; 1; 2]%Z
    [("message", ObjCol [Some "Help me"; Some "Water"; Some "Help me"]);
     ("original", ObjCol [Some "Aidez-moi"; None; Some "Aidez-moi"])].

Definition three_rows_cleaned : DataFrame :=
  mkDataFrame [0; 1]%Z
    [("message", ObjCol [Some "Help me"; Some "Water"]);
     ("original", ObjCol [Some "Aidez-moi"; None]);
     ("related", IntCol [1; 0]%Z);
     ("request", IntCol [0; 1]%Z)].

(** A token with two digit characters after the hyphen. *)
Definition two_digit_token : DataFrame :=
  table [Some "Need food"; Some "Road blocked"]
        [None; None]
        [Some "aid-12"; Some "aid-0"].

Definition two_digit_token_cleaned : DataFrame :=
  mkDataFrame [0; 1]%Z
    [("message", ObjCol [Some "Need food"; Some "Road blocked"]);
     ("original", ObjCol [None; None]);
     ("aid", IntCol [1; 0]%Z)].

(** Two records with the same message and original, and a category
    that is itself called [message]. *)
Definition category_named_message : DataFrame :=
  table [Some "Help me"; Some "Help me"]
        [Some "Aidez-moi"; Some "Aidez-moi"]
        [Some "message-1"; Some "message-0"].

Definition category_named_message_cleaned : DataFrame :=
  mkDataFrame [0; 1]%Z
    [("message", ObjCol [Some "Help me"; Some "Help me"]);
     ("original", ObjCol [Some "Aidez-moi"; Some "Aidez-moi"]);
     ("message", IntCol [1; 0]%Z)].

(** Two records with the same message and no original, and a category
    that is itself called [original]. *)
Definition category_named_original : DataFrame :=
  table [Some "Water"; Some "Water"]
        [None; None]
        [Some "original-0"; Some "original-1"].

Definition category_named_original_cleaned : DataFrame :=
  mkDataFrame [0; 1]%Z
    [("message", ObjCol [Some "Water"; Some "Water"]);
     ("original", ObjCol [None; None]);
     ("original", IntCol [0; 1]%Z)].

(** Two records with the same message and no original. *)
Definition null_originals : DataFrame :=
  table [Some "Water"; Some "Help me"; Some "Water"]
        [None; Some "Aidez-moi"; None]
        [Some "related-1;request-0";
         Some "related-0;request-1";
         Some "related-0;request-0"].

Definition null_originals_after : DataFrame :=
  mkDataFrame [0; 1; 2]%Z
    [("message", ObjCol [Some "Water"; Some "Help me"; Some "Water"]);
     ("original", ObjCol [None; Some "Aidez-moi"; None])].

Definition null_originals_cleaned : DataFrame :=
  mkDataFrame [0; 1]%Z
    [("message", ObjCol [Some "Water"; Some "Help me"]);
     ("original", ObjCol [None; Some "Aidez-moi"]);
     ("related", IntCol [1; 0]%Z);
     ("request", IntCol [0; 1]%Z)].

(** A table without a [message] column. *)
Definition no_message : DataFrame :=
  mkDataFrame (RangeIndex 2)
    [("id", IntCol [1; 2]%Z);
     ("categories", ObjCol [Some "related-1"; Some "related-0"])].

(** Two sources whose identifiers do not meet. *)
Definition messages_source : DataFrame :=
  mkDataFrame (RangeIndex 2)
    [("id", IntCol [2; 7]%Z);
     ("message", ObjCol [Some "Help me"; Some "Water"]);
     ("original", ObjCol [Some "Aidez-moi"; None]);
     ("genre", ObjCol [Some "direct"; Some "news"])].

Definition categories_source : DataFrame :=
  mkDataFrame (RangeIndex 2)
    [("id", IntCol [8; 9]%Z);
     ("categories", ObjCol [Some "related-1;request-0";
                            Some "related-0;request-1"])].

Definition files (path : string) : result DataFrame :=
  if String.eqb path "messages.csv" then Ok messages_source
  else if String.eqb path "categories.csv" then Ok categories_source
  else Raise FileNotFoundError.

Definition no_rows : DataFrame :=
  mkDataFrame []
    [("id", IntCol []); ("message", ObjCol []); ("original", ObjCol []);
     ("genre", ObjCol []); ("categories", ObjCol [])].

Definition any_engine (url table : string) (df : DataFrame)
  : result unit := Ok tt.

(** A categories source for [messages_source], in another order and with
    one identifier more. *)
Definition categories_matching : DataFrame :=
  mkDataFrame (RangeIndex 3)
    [("id", IntCol [7; 2; 5]%Z);
     ("categories", ObjCol [Some "related-1;request-0";
                            Some "related-0;request-1";
                            Some "related-1;request-1"])].

Definition matching_files (path : string) : result DataFrame :=
  if String.eqb path "messages.csv" then Ok messages_source
  else if String.eqb path "categories.csv" then Ok categories_matching
  else Raise FileNotFoundError.

Definition joined : DataFrame :=
  mkDataFrame [0; 1]%Z
    [("id", IntCol [2; 7]%Z);
     ("message", ObjCol [Some "Help me"; Some "Water"]);
     ("original", ObjCol [Some "Aidez-moi"; None]);
     ("genre", ObjCol [Some "direct"; Some "news"]);
     ("categories", ObjCol [Some "related-0;request-1";
                            Some "related-1;request-0"])].

Definition joined_after : DataFrame :=
  mkDataFrame [0; 1]%Z
    [("id", IntCol [2; 7]%Z);
     ("message", ObjCol [Some "Help me"; Some "Water"]);
     ("original", ObjCol [Some "Aidez-moi"; None]);
     ("genre", ObjCol [Some "direct"; Some "news"])].

Definition joined_cleaned : DataFrame :=
  mkDataFrame [0; 1]%Z
    [("id", IntCol [2; 7]%Z);
     ("message", ObjCol [Some "Help me"; Some "Water"]);
     ("original", ObjCol [Some "Aidez-moi"; None]);
     ("genre", ObjCol [Some "direct"; Some "news"]);
     ("related", IntCol [0; 1]%Z);
     ("request", IntCol [1; 0]%Z)].

(** A category name with a hyphen: the tokens are the name [child-alone]
    with the digits 1 and 0. *)
Definition hyphen_in_name : DataFrame :=
  table [Some "Help me"; Some "Water"]
        [Some "Aidez-moi"; None]
        [Some "child-alone-1"; Some "child-alone-0"].

(** A category name with a hyphen and a digit of its own: the first
    tokens are the name [aid-0] with the digits 9 and 0. *)
Definition digit_in_name : DataFrame :=
  table [Some "Help me"; Some "Water"]
        [Some "Aidez-moi"; None]
        [Some "aid-0-9;related-1"; Some "aid-0-0;related-0"].

Definition digit_in_name_cleaned : DataFrame :=
  mkDataFrame [0; 1]%Z
    [("message", ObjCol [Some "Help me"; Some "Water"]);
     ("original", ObjCol [Some "Aidez-moi"; None]);
     ("related", IntCol [1; 0]%Z)].

End Samples.

(* ================================================================= *)
(** ** Vocabulary of the statements *)

(** Every column has one cell per row label. *)
Definition well_formed (df : DataFrame) : Prop :=
  Forall (fun c => length (values (snd c)) = length (index df)) (columns df).

(** The labels that [clean_data] deduplicates on. *)
Definition key_fields : list string := ["message"; "original"].

Definition non_category (c : string * Series) : bool :=
  negb (String.eqb (fst c) "categories").

(** The fields of a table other than the delimited [categories] field. *)
Definition fields (df : DataFrame) : list (string * Series) :=
  filter non_category (columns df).

(** The columns of [out] that come after the fields of [df]: the decoded
    category columns when [out] is the cleaned [df]. *)
Definition category_columns (df out : DataFrame) : list (string * Series) :=
  skipn (length (fields df)) (columns out).

Definition category_schema (df out : DataFrame) : list string :=
  map fst (category_columns df out).

(** The [j]-th token of a cell of the [categories] column. *)
Definition token (j : nat) (cell : option string) : option string :=
  str_split_get ";" j cell.

(** What lines 57-60 make of one token, and line 63 of that. *)
Definition token_value (t : string) : result Z :=
  to_int64 (str_split_get "-" 1 (Some t)).

Definition decode_clamp (t : string) : result Z :=
  z <- token_value t ;; Ok (clip1 0 1 z).

(** The ten ASCII digits. *)
Definition digit_char (d : ascii) : bool :=
  ((48 <=? nat_of_ascii d) && (nat_of_ascii d <=? 57))%nat.

Fixpoint mentions (c : ascii) (s : string) : bool :=
  match s with
  | EmptyString => false
  | String a r => Ascii.eqb a c || mentions c r
  end.

(** The token shape of the specification: a name, a hyphen and a single
    digit character.  The name is what stands before the hyphen, so it has
    none itself. *)
Definition name_digit_shape (t : string) : bool :=
  match split "-" t with
  | [_; String d EmptyString] => digit_char d
  | _ => false
  end.

(** The decoding that the specification gives for the token [name-d]:
    the digit 0 gives 0, every other digit gives 1. *)
Definition name_digit_decoding (name : string) (d : ascii) : option Z :=
  if digit_char d
  then Some (if Ascii.eqb d "0" then 0%Z else 1%Z)
  else None.

(** All the tokens of all the cells of a [categories] column. *)
Definition tokens (cells : list (option string)) : list string :=
  flat_map (fun cell => match cell with
                        | Some s => split ";" s
                        | None => []
                        end) cells.

(** Lines 57-60 on the cells of one column. *)
Definition conv_col (cells : list (option string)) : result (list Z) :=
  mapM to_int64 (map (str_split_get "-" 1) cells).

Definition objcols (l : list (string * list (option string)))
  : list (string * Series) :=
  map (fun p => (fst p, ObjCol (snd p))) l.

Definition intcols (l : list (string * list Z)) : list (string * Series) :=
  map (fun p => (fst p, IntCol (snd p))) l.

Definition conv_named (p : string * list (option string))
  : result (string * list Z) :=
  v <- conv_col (snd p) ;; Ok (fst p, v).

Definition clip_named (p : string * list Z) : string * list Z :=
  (fst p, map (clip1 0 1) (snd p)).

Definition one_valued (c : string * Series) : bool :=
  (nunique (snd c) =? 1)%nat.

(** The name that line 49 reads off a token. *)
Definition token_name (t : string) : string :=
  match split "-" t with
  | h :: _ => h
  | [] => EmptyString
  end.

(** Lines 41-70 of [clean_data]: they build the frame [categories] and do
    not touch the table passed in. *)
Definition decode_categories (df : DataFrame) : result DataFrame :=
  cells <- (sel <- getattr "categories" df ;; str sel) ;;
  let categories := str_split_expand ";" (index df) cells in
  row <- iloc0 categories ;;
  category_colnames <- mapM colname row ;;
  categories <- set_columns category_colnames categories ;;
  categories <- for_column (labels categories) categories ;;
  categories <- clip 0 1 categories ;;
  one_val_cols <- one_val (labels categories) categories ;;
  drop one_val_cols categories.

(** The number of columns of the expanded frame. *)
Definition expanded_width (cells : list (option string)) : nat :=
  width (map (option_map (split ";")) cells).

(** [v] lists, record by record, the clamped value of the [j]-th token. *)
Definition decoded_from (cells : list (option string)) (j : nat)
    (v : list Z) : Prop :=
  Forall2 (fun cell z =>
             exists t, token j cell = Some t /\ decode_clamp t = Ok z)
          cells v.

(** A column operation that only removes cells. *)
Definition thins (F : Series -> Series) : Prop :=
  forall s,
    match s, F s with
    | IntCol l, IntCol l' => incl l' l
    | ObjCol l, ObjCol l' => incl l' l
    | _, _ => False
    end.

Definition on_columns (F : Series -> Series) (cs : list (string * Series))
  : list (string * Series) :=
  map (fun c => (fst c, F (snd c))) cs.

Definition pruned (res : list (string * list Z)) : list (string * Series) :=
  filter (fun c => negb (one_valued c)) (intcols res).

Definition is_key (c : string * Series) : bool := mem (fst c) key_fields.

Definition has_label (n : string) (c : string * Series) : bool :=
  String.eqb (fst c) n.

(** The rows that deduplication on the key fields keeps. *)
Definition kept (df : DataFrame) : list bool :=
  map negb (duplicated key_fields df).

(** What the records of a [categories] column must be for lines 41-70 to
    go through, given the category string [s0] of the first record: the
    names of the first record are distinct, and every record has a string
    of as many tokens, each of which can be decoded. *)
Definition decodable (cells : list (option string)) (s0 : string) : Prop :=
  NoDup (map token_name (split ";" s0))
  /\ forall cell, In cell cells ->
       exists s, cell = Some s
         /\ length (split ";" s) = length (split ";" s0)
         /\ forall t, In t (split ";" s) -> exists z, token_value t = Ok z.

(** The texts that [main] prints around its three steps, and the address
    that [save_data] opens. *)
Definition loading_text (messages_filepath categories_filepath : string)
  : string :=
  ("Loading data..." ++ nl
   ++ "    MESSAGES: " ++ messages_filepath ++ nl
   ++ "    CATEGORIES: " ++ categories_filepath)%string.

Definition saving_text (database_filepath : string) : string :=
  ("Saving data..." ++ nl ++ "    DATABASE: " ++ database_filepath)%string.

Definition db_url (database_filename : string) : string :=
  ("sqlite:///" ++ database_filename)%string.

(* ================================================================= *)
(** ** Strings and tokens *)

Unset Implicit Arguments.

Lemma split_not_nil sep s : split sep s <> [].
Proof.
  destruct s as [|c r]; simpl; [discriminate|].
  destruct (Ascii.eqb c sep); [discriminate|].
  destruct (split sep r); discriminate.
Qed.

Lemma split_append sep p r :
  mentions sep p = false ->
  split sep (p ++ String sep r)%string = p :: split sep r.
Proof.
  induction p as [|c p IH]; simpl; intros H.
  - now rewrite Ascii.eqb_refl.
  - apply orb_false_iff in H as [Hc Hp].
    rewrite Hc, (IH Hp). reflexivity.
Qed.

(** [int()] as lines 57-60 meet it: underscores between digits, a sign
    and white space around are read; the decimal digits of every script
    count, here ARABIC-INDIC DIGIT THREE (U+0663, the bytes D9 A3), and
    NO-BREAK SPACE (U+00A0, the bytes C2 A0) is white space; a number of
    more than 4300 digits is refused. *)
Lemma int_examples :
  Py.int "12" = Ok 12%Z
  /\ Py.int " +1_0 " = Ok 10%Z
  /\ Py.int "-7" = Ok (-7)%Z
  /\ Py.int (String (ascii_of_nat 217) (String (ascii_of_nat 163) "")) = Ok 3%Z
  /\ Py.int (String (ascii_of_nat 194) (String (ascii_of_nat 160) "1"))
     = Ok 1%Z
  /\ Py.int "" = Raise ValueError
  /\ Py.int "1__0" = Raise ValueError
  /\ Py.int "_1" = Raise ValueError
  /\ Py.int "1.0" = Raise ValueError
  /\ Py.int "alone" = Raise ValueError
  /\ Py.int (string_of_list_ascii (repeat "0"%char 4300)) = Ok 0%Z
  /\ Py.int (string_of_list_ascii (repeat "0"%char 4301)) = Raise ValueError.
Proof. repeat split; vm_compute; reflexivity. Qed.

Lemma digit_token_value d :
  digit_char d = true ->
  token_value (String "-" (String d EmptyString))
  = Ok (Z.of_nat (nat_of_ascii d - 48))
  /\ (0 <= Z.of_nat (nat_of_ascii d - 48) <= 9)%Z
  /\ (Z.of_nat (nat_of_ascii d - 48) = 0%Z <-> d = "0"%char).
Proof.
  destruct d as [[] [] [] [] [] [] [] []]; intros H;
    try discriminate H; vm_compute;
    (split; [reflexivity|split; [split; discriminate|split; congruence]]).
Qed.

Lemma name_digit_decode name d :
  mentions "-" name = false ->
  digit_char d = true ->
  decode_clamp (name ++ String "-" (String d EmptyString))
  = Ok (if Ascii.eqb d "0" then 0%Z else 1%Z).
Proof.
  intros Hname Hd.
  destruct (digit_token_value d Hd) as (Hv & Hrange & Hzero).
  unfold decode_clamp, token_value, str_split_get in *.
  rewrite (split_append _ _ _ Hname).
  change (split "-" (String "-" (String d ""))) with
    ("" :: split "-" (String d "")) in Hv.
  simpl nth_error in *. rewrite Hv. simpl. f_equal.
  unfold clip1. destruct (Ascii.eqb_spec d "0") as [->|Hne].
  - reflexivity.
  - assert (Z.of_nat (nat_of_ascii d - 48) <> 0%Z) by (rewrite Hzero; exact Hne).
    lia.
Qed.

(* ================================================================= *)
(** ** Selecting and replacing columns by label *)

Lemma mem_In x l : mem x l = true <-> In x l.
Proof.
  unfold mem. rewrite existsb_exists. split.
  - intros (y & Hy & E). apply String.eqb_eq in E. now subst.
  - intros H. exists x. split; [exact H|apply String.eqb_refl].
Qed.

Lemma mem_false x l : mem x l = false <-> ~ In x l.
Proof.
  rewrite <- mem_In. destruct (mem x l); split; congruence.
Qed.

Lemma filter_label_nil n (cs : list (string * Series)) :
  mem n (map fst cs) = false -> filter (has_label n) cs = [].
Proof.
  induction cs as [|c cs IH]; simpl; [reflexivity|].
  unfold has_label at 1. rewrite (String.eqb_sym (fst c) n).
  destruct (String.eqb n (fst c)); simpl; intros H;
    [discriminate H|exact (IH H)].
Qed.

Lemma filter_label_cons n (cs : list (string * Series)) :
  mem n (map fst cs) = true -> exists c r, filter (has_label n) cs = c :: r.
Proof.
  induction cs as [|c cs IH]; simpl; intros H; [discriminate H|].
  unfold has_label at 1. rewrite (String.eqb_sym (fst c) n).
  destruct (String.eqb n (fst c)); simpl in *; eauto.
Qed.

Lemma replace_absent n s (cs : list (string * Series)) :
  mem n (map fst cs) = false ->
  map (fun c => if String.eqb (fst c) n then (n, s) else c) cs = cs.
Proof.
  induction cs as [|c cs IH]; simpl; [reflexivity|].
  rewrite (String.eqb_sym (fst c) n).
  destruct (String.eqb n (fst c)); simpl; intros H; [discriminate H|].
  now rewrite IH.
Qed.

Lemma getitem_split idx n done s rest :
  getitem n (mkDataFrame idx (done ++ (n, s) :: rest))
  = map snd (filter (has_label n) done)
    ++ s :: map snd (filter (has_label n) rest).
Proof.
  unfold getitem. simpl. fold (has_label n).
  rewrite filter_app, map_app. simpl.
  unfold has_label at 2. simpl. now rewrite String.eqb_refl.
Qed.

Lemma getitem_unique idx n done s rest :
  mem n (map fst done) = false ->
  mem n (map fst rest) = false ->
  getitem n (mkDataFrame idx (done ++ (n, s) :: rest)) = [s].
Proof.
  intros Hd Hr. rewrite getitem_split.
  now rewrite (filter_label_nil _ _ Hd), (filter_label_nil _ _ Hr).
Qed.

Lemma getitem_repeated idx n done s rest :
  mem n (map fst done) || mem n (map fst rest) = true ->
  exists a b r, getitem n (mkDataFrame idx (done ++ (n, s) :: rest))
                = a :: b :: r.
Proof.
  intros H. rewrite getitem_split.
  destruct (mem n (map fst done)) eqn:Hd.
  - destruct (filter_label_cons _ _ Hd) as (c & r & ->). simpl.
    destruct (map snd r); simpl; eauto.
  - rewrite (filter_label_nil _ _ Hd). simpl in *.
    destruct (filter_label_cons _ _ H) as (c & r & ->). simpl. eauto.
Qed.

Lemma setitem_unique idx n done s s' rest :
  mem n (map fst done) = false ->
  mem n (map fst rest) = false ->
  setitem n s' (mkDataFrame idx (done ++ (n, s) :: rest))
  = mkDataFrame idx (done ++ (n, s') :: rest).
Proof.
  intros Hd Hr. unfold setitem, labels. simpl.
  assert (mem n (map fst (done ++ (n, s) :: rest)) = true) as ->.
  { apply mem_In. rewrite map_app. apply in_or_app. right. now left. }
  f_equal. rewrite map_app. simpl. rewrite String.eqb_refl.
  now rewrite (replace_absent _ _ _ Hd), (replace_absent _ _ _ Hr).
Qed.

(** One turn of the loop of lines 55-60 on a column that is still made of
    strings: a repeated label stops it, otherwise the column is
    converted where it stands. *)
Lemma for_column_step idx n todo done cells rest :
  for_column (n :: todo) (mkDataFrame idx (done ++ (n, ObjCol cells) :: rest))
  = if mem n (map fst done) || mem n (map fst rest)
    then Raise AttributeError
    else v <- conv_col cells ;;
         for_column todo (mkDataFrame idx (done ++ (n, IntCol v) :: rest)).
Proof.
  destruct (mem n (map fst done) || mem n (map fst rest)) eqn:H.
  - destruct (getitem_repeated idx n done (ObjCol cells) rest H)
      as (a & b & r & E).
    simpl. rewrite E. now destruct a.
  - apply orb_false_iff in H as [Hd Hr].
    simpl. rewrite (getitem_unique _ _ _ _ _ Hd Hr). simpl.
    rewrite (setitem_unique _ _ _ _ _ _ Hd Hr).
    rewrite (getitem_unique _ _ _ _ _ Hd Hr). simpl.
    unfold conv_col.
    destruct (mapM to_int64 (map (str_split_get "-" 1) cells)); simpl.
    + now rewrite (setitem_unique _ _ _ _ _ _ Hd Hr).
    + reflexivity.
Qed.

Lemma fst_objcols l : map fst (objcols l) = map fst l.
Proof. unfold objcols. rewrite map_map. reflexivity. Qed.

Lemma fst_intcols l : map fst (intcols l) = map fst l.
Proof. unfold intcols. rewrite map_map. reflexivity. Qed.

Lemma mapM_conv_named pend res :
  mapM conv_named pend = Ok res ->
  map fst res = map fst pend
  /\ Forall2 (fun p r => conv_col (snd p) = Ok (snd r)) pend res.
Proof.
  revert res. induction pend as [|[n cells] pend IH]; simpl; intros res H.
  - injection H as <-. split; [reflexivity|constructor].
  - unfold conv_named at 1 in H. simpl in H.
    destruct (conv_col cells) as [v|] eqn:Hv; simpl in H; [|discriminate].
    destruct (mapM conv_named pend) as [res'|]; simpl in H; [|discriminate].
    injection H as <-. destruct (IH res' eq_refl) as [Hn Hc].
    split; [simpl; now f_equal|constructor; [exact Hv|exact Hc]].
Qed.

(** The loop as a whole, when it ends: every label was met once, and
    every column is the conversion of its cells, where it stood. *)
Lemma for_column_Ok idx pend : forall done out,
  for_column (map fst pend) (mkDataFrame idx (done ++ objcols pend)) = Ok out ->
  exists res,
    mapM conv_named pend = Ok res
    /\ out = mkDataFrame idx (done ++ intcols res)
    /\ NoDup (map fst pend)
    /\ (forall n, In n (map fst pend) -> ~ In n (map fst done)).
Proof.
  induction pend as [|[n cells] pend IH]; intros done out H.
  - simpl in H. injection H as <-. exists []. repeat split; try constructor.
    intros n [].
  - simpl map in H. simpl objcols in H. rewrite for_column_step in H.
    destruct (mem n (map fst done) || mem n (map fst (objcols pend))) eqn:Hm;
      [discriminate|].
    apply orb_false_iff in Hm as [Hd Hr]. rewrite fst_objcols in Hr.
    destruct (conv_col cells) as [v|] eqn:Hv; simpl in H; [|discriminate].
    change (done ++ (n, IntCol v) :: objcols pend)
      with (done ++ [(n, IntCol v)] ++ objcols pend) in H.
    rewrite app_assoc in H.
    destruct (IH _ _ H) as (res & Hres & -> & Hnd & Hdisj).
    exists ((n, v) :: res). repeat split.
    + simpl. unfold conv_named at 1. simpl. rewrite Hv. simpl.
      now rewrite Hres.
    + now rewrite <- app_assoc.
    + simpl. constructor; [now apply mem_false|exact Hnd].
    + intros m [<-|Hin]; [now apply mem_false|].
      intros Hdone. apply (Hdisj m Hin).
      rewrite map_app. apply in_or_app. now left.
Qed.

(** A column that cannot be converted stops the loop, whatever else
    happens before it is reached. *)
Lemma for_column_Raise idx pend : forall done,
  (exists p e, In p pend /\ conv_col (snd p) = Raise e) ->
  exists e,
    for_column (map fst pend) (mkDataFrame idx (done ++ objcols pend))
    = Raise e.
Proof.
  induction pend as [|[n cells] pend IH]; intros done (p & e & Hin & Hp).
  - destruct Hin.
  - simpl map. simpl objcols. rewrite for_column_step.
    destruct (mem n (map fst done) || mem n (map fst (objcols pend)));
      [eauto|].
    destruct Hin as [<-|Hin].
    + simpl in Hp. rewrite Hp. simpl. eauto.
    + destruct (conv_col cells) as [v|]; simpl; [|eauto].
      change (done ++ (n, IntCol v) :: objcols pend)
        with (done ++ [(n, IntCol v)] ++ objcols pend).
      rewrite app_assoc. apply IH. eauto.
Qed.

Lemma clip_intcols idx res :
  clip 0 1 (mkDataFrame idx (intcols res))
  = Ok (mkDataFrame idx (intcols (map clip_named res))).
Proof.
  unfold clip. simpl.
  assert (mapM (fun c : string * Series =>
                  match snd c with
                  | IntCol l => Ok (fst c, IntCol (map (clip1 0 1) l))
                  | ObjCol _ => Raise TypeError
                  end) (intcols res)
          = Ok (intcols (map clip_named res))) as ->; [|reflexivity].
  induction res as [|[n v] res IH]; simpl; [reflexivity|].
  now rewrite IH.
Qed.

Lemma NoDup_fst_inj (cs : list (string * Series)) c c' :
  NoDup (map fst cs) -> In c cs -> In c' cs -> fst c = fst c' -> c = c'.
Proof.
  induction cs as [|x cs IH]; simpl; intros Hnd Hc Hc' E; [destruct Hc|].
  inversion Hnd as [|? ? Hx Hnd']; subst.
  destruct Hc as [->|Hc], Hc' as [->|Hc']; auto.
  - exfalso. apply Hx. rewrite E. now apply in_map.
  - exfalso. apply Hx. rewrite <- E. now apply in_map.
Qed.

Lemma getitem_NoDup idx (cs : list (string * Series)) c :
  NoDup (map fst cs) -> In c cs -> getitem (fst c) (mkDataFrame idx cs) = [snd c].
Proof.
  intros Hnd Hin. destruct (in_split _ _ Hin) as (a & b & ->).
  rewrite map_app in Hnd. simpl in Hnd.
  pose proof (NoDup_remove_2 _ _ _ Hnd) as Hout.
  destruct c as [n s]. simpl. apply getitem_unique; apply mem_false;
    intros H; apply Hout; apply in_or_app; auto.
Qed.

Lemma one_val_NoDup idx cs :
  NoDup (map fst cs) ->
  forall sub, incl sub cs ->
  one_val (map fst sub) (mkDataFrame idx cs)
  = Ok (map fst (filter one_valued sub)).
Proof.
  intros Hnd. induction sub as [|c sub IH]; intros Hincl; [reflexivity|].
  assert (Hc : In c cs) by (apply Hincl; now left).
  assert (Hsub : incl sub cs) by (intros x Hx; apply Hincl; now right).
  simpl. rewrite (getitem_NoDup idx cs c Hnd Hc). simpl.
  rewrite (IH Hsub). simpl.
  destruct (one_valued c) eqn:E; unfold one_valued in E; rewrite E;
    reflexivity.
Qed.

Lemma mem_filtered_label (P : string * Series -> bool) cs c :
  NoDup (map fst cs) -> In c cs ->
  mem (fst c) (map fst (filter P cs)) = P c.
Proof.
  intros Hnd Hin. destruct (P c) eqn:HP.
  - apply mem_In. apply in_map. apply filter_In. now split.
  - apply mem_false. intros H. apply in_map_iff in H as (c' & E & Hc').
    apply filter_In in Hc' as [Hc' HP'].
    assert (c' = c) by (eapply NoDup_fst_inj; eauto). subst. congruence.
Qed.

Lemma drop_filtered idx (P : string * Series -> bool) cs :
  NoDup (map fst cs) ->
  drop (map fst (filter P cs)) (mkDataFrame idx cs)
  = Ok (mkDataFrame idx (filter (fun c => negb (P c)) cs)).
Proof.
  intros Hnd. unfold drop, labels. simpl.
  assert (forallb (fun n => mem n (map fst cs)) (map fst (filter P cs)) = true)
    as ->.
  { apply forallb_forall. intros n Hn. apply mem_In.
    apply in_map_iff in Hn as (c & <- & Hc). apply in_map.
    now apply filter_In in Hc as [Hc _]. }
  do 2 f_equal. apply filter_ext_in. intros c Hc.
  now rewrite mem_filtered_label.
Qed.

(* ================================================================= *)
(** ** Lines 41-70: decoding the categories *)

Lemma mapM_Ok {A B} (f : A -> result B) l r :
  mapM f l = Ok r -> Forall2 (fun x y => f x = Ok y) l r.
Proof.
  revert r. induction l as [|x l IH]; simpl; intros r H.
  - injection H as <-. constructor.
  - destruct (f x) as [y|] eqn:Hx; simpl in H; [|discriminate].
    destruct (mapM f l) as [ys|]; simpl in H; [|discriminate].
    injection H as <-. constructor; auto.
Qed.

Lemma mapM_Raise {A B} (f : A -> result B) l x e :
  In x l -> f x = Raise e -> exists e', mapM f l = Raise e'.
Proof.
  induction l as [|y l IH]; simpl; intros Hin Hx; [destruct Hin|].
  destruct Hin as [->|Hin].
  - rewrite Hx. simpl. eauto.
  - destruct (f y); simpl; [|eauto].
    destruct (IH Hin Hx) as (e' & ->). simpl. eauto.
Qed.

Lemma Forall2_In_l {A B} (R : A -> B -> Prop) l r x :
  Forall2 R l r -> In x l -> exists y, In y r /\ R x y.
Proof.
  induction 1 as [|a b l r Hab _ IH]; intros Hin; [destruct Hin|].
  destruct Hin as [->|Hin].
  - exists b. split; [now left|exact Hab].
  - destruct (IH Hin) as (y & Hy & Hxy). exists y. split; [now right|exact Hxy].
Qed.

Lemma Forall2_In_r {A B} (R : A -> B -> Prop) l r y :
  Forall2 R l r -> In y r -> exists x, In x l /\ R x y.
Proof.
  induction 1 as [|a b l r Hab _ IH]; intros Hin; [destruct Hin|].
  destruct Hin as [->|Hin].
  - exists a. split; [now left|exact Hab].
  - destruct (IH Hin) as (x & Hx & Hxy). exists x. split; [now right|exact Hxy].
Qed.

Lemma expanded_columns idx cells :
  e_columns (str_split_expand ";" idx cells)
  = map (fun j => map (token j) cells) (seq 0 (expanded_width cells)).
Proof.
  unfold str_split_expand, expanded_width. simpl.
  apply map_ext. intros j. rewrite map_map. apply map_ext.
  now intros [s|].
Qed.

Lemma width_ge parts p :
  In p parts ->
  match p with Some ts => length ts | None => 1 end <= width parts.
Proof.
  intros Hin. unfold width.
  set (sizes := map (fun p => match p with
                              | Some ts => length ts
                              | None => 1
                              end) parts).
  pose proof (proj1 (list_max_le sizes (list_max sizes)) (Nat.le_refl _))
    as Hall.
  rewrite Forall_forall in Hall. apply Hall.
  apply in_map_iff. exists p. now split.
Qed.

Lemma map_nth_error_seq {A} (l : list A) :
  map (nth_error l) (seq 0 (length l)) = map Some l.
Proof.
  induction l as [|x l IH]; [reflexivity|].
  simpl. f_equal. rewrite <- seq_shift, map_map. exact IH.
Qed.

Lemma colname_Ok x n :
  colname x = Ok n -> exists s, x = Some s /\ n = token_name s.
Proof.
  destruct x as [s|]; simpl; [|discriminate].
  intros H. exists s. split; [reflexivity|].
  unfold token_name. destruct (split "-" s); [discriminate|].
  now injection H as <-.
Qed.

(** Line 49 succeeds only when the first record has as many tokens as the
    longest record, and then the names are those of its tokens. *)
Lemma first_row_names c0 rest names :
  mapM colname (map (fun j => token j c0)
                    (seq 0 (expanded_width (c0 :: rest)))) = Ok names ->
  exists s0, c0 = Some s0
    /\ expanded_width (c0 :: rest) = length (split ";" s0)
    /\ names = map token_name (split ";" s0).
Proof.
  intros H. apply mapM_Ok in H.
  assert (Hw := width_ge (map (option_map (split ";")) (c0 :: rest))
                  (option_map (split ";") c0) (or_introl eq_refl)).
  fold (expanded_width (c0 :: rest)) in Hw.
  set (w := expanded_width (c0 :: rest)) in *.
  assert (Hall : forall j, j < w -> exists t, token j c0 = Some t).
  { intros j Hj.
    assert (Hin : In (token j c0) (map (fun j => token j c0) (seq 0 w))).
    { apply in_map_iff. exists j. split; [reflexivity|].
      apply in_seq. lia. }
    destruct (Forall2_In_l _ _ _ _ H Hin) as (n & _ & Hn).
    apply colname_Ok in Hn as (s & -> & _). eauto. }
  destruct c0 as [s0|].
  - exists s0. simpl in Hw.
    assert (Hlen : w = length (split ";" s0)).
    { destruct (Nat.eq_dec w (length (split ";" s0))) as [|Hne]; [easy|].
      destruct (Hall (length (split ";" s0))) as (t & Ht); [lia|].
      simpl in Ht.
      assert (nth_error (split ";" s0) (length (split ";" s0)) <> None)
        as Hs by congruence.
      apply nth_error_Some in Hs. lia. }
    repeat split; [exact Hlen|].
    rewrite Hlen in H.
    change (fun j => token j (Some s0)) with (nth_error (split ";" s0)) in H.
    rewrite map_nth_error_seq in H.
    clear -H. revert names H.
    induction (split ";" s0) as [|t ts IH]; intros names H;
      inversion H as [|? n ? ns Hn Hns]; subst; [reflexivity|].
    simpl. apply colname_Ok in Hn as (s & E & ->). injection E as <-.
    f_equal. now apply IH.
  - simpl in Hw. destruct (Hall 0) as (t & Ht); [lia|]. discriminate.
Qed.

Lemma conv_named_combine names (g : nat -> list (option string)) :
  forall js res,
  length names = length js ->
  mapM conv_named (combine names (map g js)) = Ok res ->
  map fst res = names
  /\ Forall2 (fun j r => conv_col (g j) = Ok (snd r)) js res.
Proof.
  induction names as [|n names IH]; intros [|j js] res Hlen H;
    try discriminate Hlen.
  - injection H as <-. split; [reflexivity|constructor].
  - simpl in H. unfold conv_named at 1 in H. simpl in H.
    destruct (conv_col (g j)) as [v|] eqn:Hv; simpl in H; [|discriminate].
    destruct (mapM conv_named (combine names (map g js))) as [res'|] eqn:Hr;
      simpl in H; [|discriminate].
    injection H as <-. injection Hlen as Hlen.
    destruct (IH js res' Hlen Hr) as [Hn Hc].
    split; [simpl; now f_equal|constructor; [exact Hv|exact Hc]].
Qed.

Lemma conv_col_decoded cells j v :
  conv_col (map (token j) cells) = Ok v ->
  decoded_from cells j (map (clip1 0 1) v).
Proof.
  unfold conv_col, decoded_from. revert v.
  induction cells as [|cell cells IH]; simpl; intros v H.
  - injection H as <-. constructor.
  - destruct (to_int64 (str_split_get "-" 1 (token j cell))) as [z|] eqn:Hz;
      simpl in H; [|discriminate].
    destruct (mapM to_int64 (map (str_split_get "-" 1) (map (token j) cells)))
      as [zs|]; simpl in H; [|discriminate].
    injection H as <-. simpl. constructor; [|now apply IH].
    destruct (token j cell) as [t|]; [|discriminate].
    exists t. split; [reflexivity|].
    unfold decode_clamp, token_value. now rewrite Hz.
Qed.

Lemma fst_clip_named res : map fst (map clip_named res) = map fst res.
Proof. rewrite map_map. reflexivity. Qed.

Lemma combine_objcols names (cols : list (list (option string))) :
  combine names (map ObjCol cols) = objcols (combine names cols).
Proof.
  revert cols. induction names as [|n names IH]; intros [|c cols];
    simpl; try reflexivity.
  now rewrite IH.
Qed.

Lemma mapM_length {A B} (f : A -> result B) l r :
  mapM f l = Ok r -> length r = length l.
Proof.
  intros H. apply mapM_Ok in H. symmetry. exact (Forall2_length H).
Qed.

Arguments str_split_expand : simpl never.

(** What [categories] is when line 70 is reached. *)
Lemma decode_categories_Ok df cats :
  decode_categories df = Ok cats ->
  exists cells res,
    getitem "categories" df = [ObjCol cells]
    /\ index df <> []
    /\ NoDup (map fst res)
    /\ match cells with
       | [] => res = []
       | c0 :: _ =>
           exists s0, c0 = Some s0
                      /\ map fst res = map token_name (split ";" s0)
       end
    /\ Forall2 (fun j r => decoded_from cells j (snd r))
               (seq 0 (length res)) res
    /\ cats = mkDataFrame (index df)
                (filter (fun c => negb (one_valued c)) (intcols res)).
Proof.
  unfold decode_categories, getattr. intros H.
  destruct (getitem "categories" df) as [|s sel] eqn:Hsel; [discriminate|].
  simpl in H.
  destruct s as [cells|]; [|discriminate].
  destruct sel; [|discriminate]. simpl in H.
  pose proof (expanded_columns (index df) cells) as Hcols.
  assert (Hidx_e : e_index (str_split_expand ";" (index df) cells) = index df)
    by reflexivity.
  remember (str_split_expand ";" (index df) cells) as e eqn:He. clear He.
  unfold iloc0, set_columns in H. rewrite Hidx_e, Hcols in H. clear Hidx_e Hcols.
  destruct (index df) as [|i0 idx] eqn:Hidx; [discriminate|].
  set (w := expanded_width cells) in *.
  set (g := fun j => map (token j) cells) in *.
  rewrite map_map in H. cbn [bind] in H.
  destruct (mapM colname
              (map (fun j => match g j with x :: _ => x | [] => None end)
                   (seq 0 w))) as [names|] eqn:Hnames; [|discriminate].
  cbn [bind] in H.
  pose proof (mapM_length _ _ _ Hnames) as Hlen.
  rewrite length_map, length_seq in Hlen.
  rewrite length_map, length_seq, Hlen, Nat.eqb_refl in H.
  cbn [bind] in H. unfold labels in H. cbn [columns] in H.
  rewrite combine_objcols, fst_objcols in H.
  destruct (for_column (map fst (combine names (map g (seq 0 w))))
              (mkDataFrame (i0 :: idx)
                 (objcols (combine names (map g (seq 0 w))))))
    as [cat1|] eqn:Hloop; [|discriminate].
  cbn [bind] in H.
  destruct (for_column_Ok (i0 :: idx) (combine names (map g (seq 0 w)))
              [] cat1 Hloop) as (res0 & Hres0 & -> & Hnd & _).
  simpl app in H. rewrite clip_intcols in H. cbn [bind] in H.
  assert (Hlenw : length names = length (seq 0 w))
    by now rewrite length_seq.
  destruct (conv_named_combine names g (seq 0 w) res0 Hlenw Hres0)
    as [Hfst Hcols].
  assert (Hnd' : NoDup (map fst (intcols (map clip_named res0)))).
  { rewrite fst_intcols, fst_clip_named.
    apply mapM_conv_named in Hres0 as [-> _]. exact Hnd. }
  unfold labels in H. cbn [columns] in H.
  rewrite (one_val_NoDup (i0 :: idx) _ Hnd' _ (incl_refl _)) in H.
  cbn [bind] in H. rewrite (drop_filtered _ one_valued _ Hnd') in H.
  injection H as <-.
  exists cells, (map clip_named res0). repeat split.
  - discriminate.
  - now rewrite fst_intcols in Hnd'.
  - destruct cells as [|c0 rest].
    + assert (w = 0) as Hw0 by reflexivity. rewrite Hw0 in Hlen.
      destruct names; [|discriminate]. simpl in Hres0.
      now injection Hres0 as <-.
    + subst g. simpl in Hnames.
      destruct (first_row_names c0 rest names Hnames) as (s0 & -> & _ & Hn).
      exists s0. split; [reflexivity|].
      now rewrite fst_clip_named, Hfst.
  - rewrite length_map, <- (Forall2_length Hcols), length_seq.
    clear -Hcols. induction Hcols as [|j r js rs Hj _ IH]; simpl;
      constructor; [|exact IH].
    simpl. now apply conv_col_decoded.
Qed.

(* ================================================================= *)
(** ** [clean_data] as a whole *)

(** The table passed in is read up to line 70, changed at line 73 and
    not touched afterwards. *)
Lemma clean_data_unfold df :
  clean_data df
  = match decode_categories df with
    | Raise e => (df, Raise e)
    | Ok categories =>
        match drop ["categories"] df with
        | Raise e => (df, Raise e)
        | Ok dropped =>
            (dropped,
             drop_duplicates ["message"; "original"]
               (concat_axis1 dropped categories))
        end
    end.
Proof.
  unfold clean_data, decode_categories, mbind, get, put, lift.
  destruct (sel <- getattr "categories" df;; str sel) as [cells|];
    [|reflexivity].
  cbn [bind].
  destruct (iloc0 (str_split_expand ";" (index df) cells)) as [row|];
    [|reflexivity].
  cbn [bind].
  destruct (mapM colname row) as [names|]; [|reflexivity].
  cbn [bind].
  destruct (set_columns names (str_split_expand ";" (index df) cells))
    as [c0|]; [|reflexivity].
  cbn [bind].
  destruct (for_column (labels c0) c0) as [c1|]; [|reflexivity].
  cbn [bind].
  destruct (clip 0 1 c1) as [c2|]; [|reflexivity].
  cbn [bind].
  destruct (one_val (labels c2) c2) as [ovc|]; [|reflexivity].
  cbn [bind].
  destruct (drop ovc c2) as [c3|]; [|reflexivity].
  destruct (drop ["categories"] df); reflexivity.
Qed.

Lemma non_category_mem c :
  negb (mem (fst c) ["categories"]) = non_category c.
Proof.
  unfold non_category, mem. simpl. now rewrite orb_false_r.
Qed.

Lemma drop_categories_Ok df d :
  drop ["categories"] df = Ok d -> d = mkDataFrame (index df) (fields df).
Proof.
  unfold drop, fields.
  destruct (forallb _ _); [|discriminate].
  intros H. injection H as <-. f_equal.
  apply filter_ext. intros c. apply non_category_mem.
Qed.

Lemma drop_categories_present df s sel :
  getitem "categories" df = s :: sel ->
  drop ["categories"] df = Ok (mkDataFrame (index df) (fields df)).
Proof.
  intros H. unfold drop.
  assert (mem "categories" (labels df) = true) as Hm.
  { destruct (mem "categories" (labels df)) eqn:E; [reflexivity|].
    unfold getitem in H. fold (has_label "categories") in H.
    unfold labels in E. now rewrite (filter_label_nil _ _ E) in H. }
  simpl. rewrite Hm. simpl. unfold fields. do 2 f_equal.
  apply filter_ext. intros c. apply non_category_mem.
Qed.

(** A run that returns a table: [categories] was decoded, the caller's
    table lost its [categories] column, and the result is the
    deduplication of the two side by side. *)
Lemma clean_data_Ok df st out :
  clean_data df = (st, Ok out) ->
  exists cats,
    decode_categories df = Ok cats
    /\ st = mkDataFrame (index df) (fields df)
    /\ drop_duplicates key_fields
         (mkDataFrame (index df) (fields df ++ columns cats)) = Ok out.
Proof.
  rewrite clean_data_unfold. intros H.
  destruct (decode_categories df) as [cats|]; [|discriminate].
  destruct (drop ["categories"] df) as [d|] eqn:Hd; [|discriminate].
  apply drop_categories_Ok in Hd. subst d.
  injection H as <- H. exists cats. repeat split. exact H.
Qed.

Lemma select_incl {A} mask (l : list A) : incl (select mask l) l.
Proof.
  revert l. induction mask as [|b mask IH]; intros [|x l] y Hy;
    simpl in Hy; try contradiction.
  destruct b; [destruct Hy as [->|Hy]|]; [now left| |];
    right; now apply IH.
Qed.

Lemma select_series_thins mask : thins (select_series mask).
Proof. intros [l|l]; simpl; apply select_incl. Qed.

Lemma id_thins : thins (fun s => s).
Proof. intros [l|l]; apply incl_refl. Qed.

Lemma on_columns_id cs : on_columns (fun s => s) cs = cs.
Proof.
  unfold on_columns. induction cs as [|[n s] cs IH]; simpl;
    [reflexivity|now rewrite IH].
Qed.

Lemma fst_on_columns F cs : map fst (on_columns F cs) = map fst cs.
Proof. unfold on_columns. now rewrite map_map. Qed.

(** Deduplication keeps the columns and their labels, and thins them. *)
Lemma drop_duplicates_thins subset T out :
  drop_duplicates subset T = Ok out ->
  exists F, thins F /\ columns out = on_columns F (columns T).
Proof.
  unfold drop_duplicates. destruct (empty T).
  - intros H. injection H as <-. exists (fun s => s).
    split; [apply id_thins|now rewrite on_columns_id].
  - destruct (forallb _ _); [|discriminate].
    intros H. injection H as <-.
    exists (select_series (map negb (duplicated subset T))).
    split; [apply select_series_thins|reflexivity].
Qed.

Lemma category_columns_on F df cats out :
  columns out = on_columns F (fields df ++ cats) ->
  category_columns df out = on_columns F cats.
Proof.
  intros H. unfold category_columns, on_columns in *.
  rewrite H, map_app, skipn_app, length_map, Nat.sub_diag.
  rewrite skipn_all2 by (rewrite length_map; lia). reflexivity.
Qed.

(** The table that a successful run returns, seen from the input. *)
Lemma clean_data_columns df st out :
  clean_data df = (st, Ok out) ->
  exists cells res F,
    getitem "categories" df = [ObjCol cells]
    /\ index df <> []
    /\ NoDup (map fst res)
    /\ match cells with
       | [] => res = []
       | c0 :: _ =>
           exists s0, c0 = Some s0
                      /\ map fst res = map token_name (split ";" s0)
       end
    /\ Forall2 (fun j r => decoded_from cells j (snd r))
               (seq 0 (length res)) res
    /\ thins F
    /\ columns out = on_columns F (fields df ++ pruned res)
    /\ category_columns df out = on_columns F (pruned res).
Proof.
  intros H. apply clean_data_Ok in H as (cats & Hdec & _ & Hdd).
  apply decode_categories_Ok in Hdec
    as (cells & res & Hsel & Hidx & Hnd & Hnames & Hvals & ->).
  apply drop_duplicates_thins in Hdd as (F & HF & Hcols).
  simpl in Hcols. fold (pruned res) in Hcols.
  exists cells, res, F. repeat split; try assumption.
  now apply category_columns_on.
Qed.

Lemma fst_filter_NoDup (P : string * Series -> bool) cs :
  NoDup (map fst cs) ->
  map fst (filter P cs)
  = filter (fun n => mem n (map fst (filter P cs))) (map fst cs).
Proof.
  intros Hnd. rewrite filter_map_swap. f_equal.
  apply filter_ext_in. intros c Hc. symmetry.
  now apply mem_filtered_label.
Qed.

Lemma seq_nth_error a n k x : nth_error (seq a n) k = Some x -> x = a + k.
Proof.
  revert a k. induction n as [|n IH]; intros a [|k] H; simpl in H;
    try discriminate.
  - injection H as <-. lia.
  - apply IH in H. lia.
Qed.

Lemma Forall2_nth_error_r {A B} (R : A -> B -> Prop) l r k y :
  Forall2 R l r -> nth_error r k = Some y ->
  exists x, nth_error l k = Some x /\ R x y.
Proof.
  intros H. revert k. induction H as [|a b l r Hab _ IH]; intros [|k] Hk;
    simpl in Hk; try discriminate.
  - injection Hk as <-. exists a. now split.
  - now apply IH.
Qed.

(** A decoded column is found again at the place of its name among the
    names of the first record. *)
Lemma decoded_column_at cells (res : list (string * list Z)) n v names :
  NoDup (map fst res) ->
  map fst res = names ->
  Forall2 (fun j r => decoded_from cells j (snd r)) (seq 0 (length res)) res ->
  In (n, v) res ->
  exists j, nth_error names j = Some n /\ decoded_from cells j v
            /\ forall k, nth_error names k = Some n -> k = j.
Proof.
  intros Hnd Hnames Hvals Hin.
  destruct (In_nth_error _ _ Hin) as (j & Hj).
  destruct (Forall2_nth_error_r _ _ _ _ _ Hvals Hj) as (j' & Hj' & Hdec).
  apply seq_nth_error in Hj'. simpl in Hj'. subst j'.
  assert (Hn : nth_error names j = Some n).
  { rewrite <- Hnames, nth_error_map, Hj. reflexivity. }
  exists j. repeat split; [exact Hn|exact Hdec|].
  intros k Hk. rewrite <- Hnames in Hk, Hn.
  symmetry. apply (proj1 (NoDup_nth_error _) Hnd).
  - apply nth_error_Some. congruence.
  - congruence.
Qed.

Lemma decode_clamp_binary t z : decode_clamp t = Ok z -> z = 0%Z \/ z = 1%Z.
Proof.
  unfold decode_clamp. destruct (token_value t) as [y|]; simpl;
    [|discriminate].
  intros H. injection H as <-. unfold clip1. lia.
Qed.

Lemma in_pruned c res :
  In c (pruned res) ->
  exists n v, c = (n, IntCol v) /\ In (n, v) res
              /\ one_valued (n, IntCol v) = false.
Proof.
  unfold pruned, intcols. intros H. apply filter_In in H as [Hin Hone].
  apply in_map_iff in Hin as ([n v] & <- & Hin).
  exists n, v. simpl in *. repeat split; [exact Hin|].
  now apply negb_true_iff.
Qed.

Lemma in_on_columns F cs c :
  In c (on_columns F cs) -> exists c0, In c0 cs /\ c = (fst c0, F (snd c0)).
Proof.
  unfold on_columns. intros H. apply in_map_iff in H as (c0 & <- & H).
  eauto.
Qed.

Lemma thins_int F v : thins F -> exists l, F (IntCol v) = IntCol l /\ incl l v.
Proof.
  intros HF. specialize (HF (IntCol v)). simpl in HF.
  destruct (F (IntCol v)) as [l|l]; [destruct HF|eauto].
Qed.

Lemma nunique_constant v z :
  v <> [] -> (forall x, In x v -> x = z) -> nunique (IntCol v) = 1.
Proof.
  unfold nunique. simpl. induction v as [|x v IH]; intros Hne Hall;
    [congruence|].
  simpl. assert (x = z) by (apply Hall; now left). subst x.
  destruct (in_dec value_eq_dec (VInt z) (map VInt v)) as [Hin|Hout].
  - apply IH.
    + intros ->. destruct Hin.
    + intros x Hx. apply Hall. now right.
  - destruct v as [|y v]; [reflexivity|].
    exfalso. apply Hout. left. f_equal. apply Hall. right. now left.
Qed.

Lemma binary_not_constant v :
  v <> [] ->
  (forall z, In z v -> z = 0%Z \/ z = 1%Z) ->
  nunique (IntCol v) <> 1 ->
  In 0%Z v /\ In 1%Z v.
Proof.
  intros Hne Hbin Hn. split.
  - destruct (in_dec Z.eq_dec 0%Z v) as [H|H]; [exact H|].
    exfalso. apply Hn. apply (nunique_constant v 1%Z Hne).
    intros z Hz. destruct (Hbin z Hz) as [-> | ->]; [contradiction|reflexivity].
  - destruct (in_dec Z.eq_dec 1%Z v) as [H|H]; [exact H|].
    exfalso. apply Hn. apply (nunique_constant v 0%Z Hne).
    intros z Hz. destruct (Hbin z Hz) as [-> | ->]; [reflexivity|contradiction].
Qed.

Lemma nunique_one v x y :
  nunique (IntCol v) = 1 -> In x v -> In y v -> x = y.
Proof.
  unfold nunique. simpl. intros Hn Hx Hy.
  destruct (nodup value_eq_dec (map VInt v)) as [|a [|b l]] eqn:E;
    try discriminate Hn.
  assert (Ha : forall z, In z v -> VInt z = a).
  { intros z Hz.
    assert (In (VInt z) (nodup value_eq_dec (map VInt v))) as Hin
      by (apply nodup_In; now apply in_map).
    rewrite E in Hin. destruct Hin as [<-|[]]. reflexivity. }
  pose proof (Ha x Hx) as Ex. pose proof (Ha y Hy) as Ey.
  congruence.
Qed.

(** A column of zeros and ones is kept exactly when it has both. *)
Lemma binary_column_kept n v :
  v <> [] ->
  (forall z, In z v -> z = 0%Z \/ z = 1%Z) ->
  negb (one_valued (n, IntCol v)) = true <-> In 0%Z v /\ In 1%Z v.
Proof.
  intros Hne Hbin. unfold one_valued. cbn [snd].
  rewrite negb_true_iff, Nat.eqb_neq. split.
  - now apply binary_not_constant.
  - intros [H0 H1] Hn. pose proof (nunique_one v _ _ Hn H0 H1).
    discriminate.
Qed.

Lemma filter_select {A} (P : A -> bool) l :
  filter P l = select (map P l) l.
Proof.
  induction l as [|x l IH]; simpl; [reflexivity|].
  destruct (P x); now rewrite IH.
Qed.

Lemma select_map {A B} (f : A -> B) mask l :
  select mask (map f l) = map f (select mask l).
Proof.
  revert l. induction mask as [|b mask IH]; intros [|x l]; simpl;
    try reflexivity.
  destruct b; simpl; now rewrite IH.
Qed.

Lemma select_length {A B} mask (l1 : list A) (l2 : list B) :
  length l1 = length l2 ->
  length (select mask l1) = length (select mask l2).
Proof.
  revert l1 l2. induction mask as [|b mask IH]; intros [|x l1] [|y l2] H;
    simpl in *; try discriminate; try reflexivity.
  injection H as H. destruct b; simpl; auto.
Qed.

Lemma select_rows_well_formed mask T :
  well_formed T -> well_formed (select_rows mask T).
Proof.
  unfold well_formed, select_rows. simpl. intros H.
  apply Forall_forall. intros c Hc.
  apply in_map_iff in Hc as (c0 & <- & Hc0). simpl.
  destruct (snd c0) as [l|l] eqn:E; simpl; rewrite length_map;
    apply select_length;
    rewrite Forall_forall in H; specialize (H c0 Hc0); rewrite E in H;
    simpl in H; now rewrite length_map in H.
Qed.

Lemma drop_duplicates_well_formed subset T out :
  well_formed T -> drop_duplicates subset T = Ok out -> well_formed out.
Proof.
  intros Hwf. unfold drop_duplicates. destruct (empty T).
  - intros H. now injection H as <-.
  - destruct (forallb _ _); [|discriminate].
    intros H. injection H as <-. now apply select_rows_well_formed.
Qed.

(** Cleaning a table that has one cell per row and column returns such a
    table. *)
Lemma clean_data_well_formed df st out :
  well_formed df -> clean_data df = (st, Ok out) -> well_formed out.
Proof.
  intros Hwf Hrun.
  destruct (clean_data_Ok df st out Hrun) as (cats & Hdec & _ & Hdd).
  destruct (decode_categories_Ok df cats Hdec)
    as (cells & res & Hsel & _ & Hnd & _ & Hvals & ->).
  apply (drop_duplicates_well_formed _ _ _ ) in Hdd; [exact Hdd|].
  unfold well_formed in *. simpl. rewrite Forall_forall in Hwf.
  assert (Hcells : length cells = length (index df)).
  { unfold getitem in Hsel.
    assert (In (ObjCol cells)
               (map snd (filter (fun c => String.eqb (fst c) "categories")
                                (columns df)))) as Hin
      by (rewrite Hsel; now left).
    apply in_map_iff in Hin as (c & E & Hc). apply filter_In in Hc as [Hc _].
    specialize (Hwf c Hc). rewrite E in Hwf. simpl in Hwf.
    now rewrite length_map in Hwf. }
  apply Forall_app. split; apply Forall_forall; intros c Hc.
  - apply Hwf. unfold fields in Hc. now apply filter_In in Hc as [Hc _].
  - apply in_pruned in Hc as (n & v & -> & Hin & _). simpl.
    destruct (decoded_column_at cells res n v _ Hnd eq_refl Hvals Hin)
      as (j & _ & Hdecoded & _).
    rewrite length_map, <- Hcells. symmetry.
    exact (Forall2_length Hdecoded).
Qed.

(* ================================================================= *)
(** ** Decoded values, pruning and the schema of the result *)

(** C1.  The digit that ends a token decides the value only when the
    name has no hyphen of its own: lines 49 and 57 cut the token at its
    first hyphen, while the comment on line 56 takes the last character.
    The token [child-alone-1], the name [child-alone] with the digit 1,
    stops the run with a [ValueError].  The token [aid-0-9], the name
    [aid-0] with the digit 9, is read as the name [aid] with the value 0;
    for the two records [aid-0-9] and [aid-0-0] the table returned has no
    column of that category at all, where the digits call for a column
    holding 1 and 0. *)
Theorem hyphenated_name_is_misread :
  name_digit_decoding "child-alone" "1" = Some 1%Z
  /\ decode_clamp ("child-alone" ++ String "-" (String "1" ""))
     = Raise ValueError
  /\ getitem "categories" Samples.hyphen_in_name
     = [ObjCol [Some "child-alone-1"; Some "child-alone-0"]]
  /\ clean_data Samples.hyphen_in_name
     = (Samples.hyphen_in_name, Raise ValueError)
  /\ name_digit_decoding "aid-0" "9" = Some 1%Z
  /\ decode_clamp ("aid-0" ++ String "-" (String "9" "")) = Ok 0%Z
  /\ token_name ("aid-0" ++ String "-" (String "9" "")) = "aid"
  /\ getitem "categories" Samples.digit_in_name
     = [ObjCol [Some "aid-0-9;related-1"; Some "aid-0-0;related-0"]]
  /\ clean_data Samples.digit_in_name
     = (mkDataFrame (index Samples.digit_in_name)
          (fields Samples.digit_in_name),
        Ok Samples.digit_in_name_cleaned)
  /\ category_columns Samples.digit_in_name Samples.digit_in_name_cleaned
     = [("related", IntCol [1; 0]%Z)].
Proof. repeat split. Qed.

(** C3.  The distinct values of each decoded column are counted once, over
    all the records, after clamping, and a column with a single value is
    dropped: when the tokens at place [j] of all the records clamp to one
    value, the name of that place is not among the category columns of the
    table returned. *)
Theorem constant_category_pruned df st out s0 rest j t0 v :
  getitem "categories" df = [ObjCol (Some s0 :: rest)] ->
  clean_data df = (st, Ok out) ->
  nth_error (split ";" s0) j = Some t0 ->
  (forall cell t z,
      In cell (Some s0 :: rest) -> token j cell = Some t ->
      decode_clamp t = Ok z -> z = v) ->
  ~ In (token_name t0) (category_schema df out).
Proof.
  intros Hsel Hrun Ht0 Hconst Hin.
  destruct (clean_data_columns df st out Hrun)
    as (cells' & res & F & Hsel' & _ & Hnd & Hnames & Hvals & HF & _ & Hcat).
  rewrite Hsel in Hsel'. injection Hsel' as <-.
  destruct Hnames as (s0' & E & Hnames). injection E as <-.
  unfold category_schema in Hin. rewrite Hcat, fst_on_columns in Hin.
  apply in_map_iff in Hin as (c & Hname & Hc).
  apply in_pruned in Hc as (n & w & -> & Hres & Hone). simpl in Hname.
  destruct (decoded_column_at _ res n w _ Hnd Hnames Hvals Hres)
    as (k & Hk & Hdec & Huniq).
  assert (j = k).
  { apply Huniq. rewrite nth_error_map, Ht0. simpl. now rewrite Hname. }
  subst k. unfold one_valued in Hone. simpl in Hone.
  rewrite (nunique_constant w v) in Hone; [discriminate| |].
  - pose proof (Forall2_length Hdec) as Hlen. now destruct w.
  - intros z Hz.
    destruct (Forall2_In_r _ _ _ _ Hdec Hz) as (cell & Hcell & t & Ht & Hd).
    exact (Hconst cell t z Hcell Ht Hd).
Qed.

Lemma constant_category_pruned_witness :
  ~ In (token_name "offer-1")
       (category_schema Samples.three_rows Samples.three_rows_cleaned).
Proof.
  apply (constant_category_pruned Samples.three_rows
           Samples.three_rows_after Samples.three_rows_cleaned
           "related-1;request-0;offer-1"
           [Some "related-0;request-2;offer-1";
            Some "related-0;request-1;offer-1"] 2 "offer-1" 1%Z);
    try reflexivity.
  intros cell t z [<-|[<-|[<-|[]]]] Ht; injection Ht as <-;
    intros Hz; vm_compute in Hz; now injection Hz as <-.
Defined.

(** C4.  The columns of the table returned are the fields of the input
    other than [categories], in their order, followed by the decoded
    category columns that survive, under the names of the tokens of the
    first record and in the order of that record.  The category at place
    [j] of the first record survives exactly when the tokens at place [j]
    of the records clamp to 0 for some record and to 1 for another.  The
    columns that follow the fields are integer columns, and every record
    returned has a cell in each column. *)
Theorem cleaned_schema df st out s0 rest :
  getitem "categories" df = [ObjCol (Some s0 :: rest)] ->
  clean_data df = (st, Ok out) ->
  (exists keep : list bool,
      length keep = length (split ";" s0)
      /\ (forall j, j < length (split ";" s0) ->
            (nth j keep false = true
             <-> (exists cell t, In cell (Some s0 :: rest)
                                 /\ token j cell = Some t
                                 /\ decode_clamp t = Ok 0%Z)
                 /\ (exists cell t, In cell (Some s0 :: rest)
                                    /\ token j cell = Some t
                                    /\ decode_clamp t = Ok 1%Z)))
      /\ labels out
         = map fst (fields df)
           ++ select keep (map token_name (split ";" s0)))
  /\ Forall (fun c => exists l, snd c = IntCol l) (category_columns df out)
  /\ (well_formed df -> well_formed out).
Proof.
  intros Hsel Hrun.
  split; [|split;
           [|intros Hwf; exact (clean_data_well_formed df st out Hwf Hrun)]].
  - destruct (clean_data_columns df st out Hrun)
      as (cells' & res & F & Hsel' & _ & Hnd & Hnames & Hvals & _ & Hcols & _).
    rewrite Hsel in Hsel'. injection Hsel' as <-.
    destruct Hnames as (s0' & E & Hnames). injection E as <-.
    assert (Hlen : length res = length (split ";" s0)).
    { rewrite <- (length_map fst res), Hnames. apply length_map. }
    exists (map (fun c => negb (one_valued c)) (intcols res)).
    split; [|split].
    + unfold intcols. now rewrite !length_map.
    + intros j Hj. rewrite <- Hlen in Hj.
      destruct (nth_error res j) as [[n v]|] eqn:Hr;
        [|apply nth_error_None in Hr; lia].
      destruct (Forall2_nth_error_r _ _ _ _ _ Hvals Hr) as (j' & Hj' & Hdec).
      apply seq_nth_error in Hj'. simpl in Hj', Hdec. subst j'.
      assert (Hk : nth j (map (fun c => negb (one_valued c)) (intcols res))
                       false
                   = negb (one_valued (n, IntCol v))).
      { apply nth_error_nth. unfold intcols.
        rewrite !nth_error_map, Hr. reflexivity. }
      rewrite Hk.
      assert (Hv : v <> []).
      { intros ->. apply Forall2_length in Hdec. discriminate Hdec. }
      assert (Hbin : forall z, In z v -> z = 0%Z \/ z = 1%Z).
      { intros z Hz. destruct (Forall2_In_r _ _ _ _ Hdec Hz)
          as (cell & _ & t & _ & Ht).
        now apply decode_clamp_binary in Ht. }
      rewrite (binary_column_kept n v Hv Hbin).
      assert (Hval : forall z,
                 In z v <-> exists cell t, In cell (Some s0 :: rest)
                                           /\ token j cell = Some t
                                           /\ decode_clamp t = Ok z).
      { intros z. split.
        - intros Hz. destruct (Forall2_In_r _ _ _ _ Hdec Hz)
            as (cell & Hcell & t & Ht & Hd). eauto.
        - intros (cell & t & Hcell & Ht & Hd).
          destruct (Forall2_In_l _ _ _ _ Hdec Hcell)
            as (z' & Hz' & t' & Ht' & Hd').
          rewrite Ht in Ht'. injection Ht' as <-.
          rewrite Hd in Hd'. injection Hd' as <-. exact Hz'. }
      now rewrite !Hval.
    + unfold labels. rewrite Hcols, fst_on_columns, map_app. f_equal.
      unfold pruned. rewrite filter_select, <- select_map.
      now rewrite fst_intcols, Hnames.
  - destruct (clean_data_columns df st out Hrun)
      as (cells' & res & F & _ & _ & _ & _ & _ & HF & _ & Hcat).
    apply Forall_forall. intros c Hc. rewrite Hcat in Hc.
    apply in_on_columns in Hc as (c0 & Hc0 & ->).
    apply in_pruned in Hc0 as (n & v & -> & _ & _). simpl.
    destruct (thins_int F v HF) as (l & -> & _). eauto.
Qed.

Lemma cleaned_schema_witness :
  (exists keep : list bool,
      length keep = length (split ";" "related-1;request-0;offer-1")
      /\ (forall j, j < length (split ";" "related-1;request-0;offer-1") ->
            (nth j keep false = true
             <-> (exists cell t,
                     In cell [Some "related-1;request-0;offer-1";
                              Some "related-0;request-2;offer-1";
                              Some "related-0;request-1;offer-1"]
                     /\ token j cell = Some t
                     /\ decode_clamp t = Ok 0%Z)
                 /\ (exists cell t,
                        In cell [Some "related-1;request-0;offer-1";
                                 Some "related-0;request-2;offer-1";
                                 Some "related-0;request-1;offer-1"]
                        /\ token j cell = Some t
                        /\ decode_clamp t = Ok 1%Z)))
      /\ labels Samples.three_rows_cleaned
         = map fst (fields Samples.three_rows)
           ++ select keep
                (map token_name (split ";" "related-1;request-0;offer-1")))
  /\ Forall (fun c => exists l, snd c = IntCol l)
            (category_columns Samples.three_rows Samples.three_rows_cleaned)
  /\ (well_formed Samples.three_rows ->
      well_formed Samples.three_rows_cleaned).
Proof.
  exact (cleaned_schema Samples.three_rows Samples.three_rows_after
           Samples.three_rows_cleaned _ _ eq_refl eq_refl).
Defined.

(* ================================================================= *)
(** ** Running [clean_data] again, and what it does to its argument *)

Lemma getitem_fields n df :
  n <> "categories" ->
  getitem n (mkDataFrame (index df) (fields df)) = getitem n df.
Proof.
  intros Hn. unfold getitem, fields. simpl. f_equal.
  induction (columns df) as [|c cs IH]; simpl; [reflexivity|].
  unfold non_category at 1.
  destruct (String.eqb_spec (fst c) "categories") as [E|E]; simpl.
  - destruct (String.eqb_spec (fst c) n) as [E'|E']; [congruence|exact IH].
  - destruct (String.eqb (fst c) n); [now rewrite IH|exact IH].
Qed.

Lemma str_of_int_columns n df :
  Forall (fun s => exists l, s = IntCol l) (getitem n df) ->
  (sel <- getattr n df ;; str sel) = Raise AttributeError.
Proof.
  unfold getattr. intros H.
  destruct H as [|s sel (l & ->) _]; reflexivity.
Qed.

Lemma cleaned_categories_are_int df st out :
  clean_data df = (st, Ok out) ->
  Forall (fun s => exists l, s = IntCol l) (getitem "categories" out).
Proof.
  intros Hrun.
  destruct (clean_data_columns df st out Hrun)
    as (cells & res & F & _ & _ & _ & _ & _ & HF & Hcols & _).
  apply Forall_forall. intros s Hs. unfold getitem in Hs.
  apply in_map_iff in Hs as (c & <- & Hc). apply filter_In in Hc as [Hc Hl].
  rewrite Hcols in Hc. apply in_on_columns in Hc as (c0 & Hc0 & ->).
  simpl in *. apply in_app_or in Hc0 as [Hf|Hp].
  - apply filter_In in Hf as [_ Hf]. unfold non_category in Hf.
    rewrite Hl in Hf. discriminate.
  - apply in_pruned in Hp as (n & v & -> & _ & _). simpl.
    destruct (thins_int F v HF) as (l & -> & _). eauto.
Qed.

(** C5, as the code has it.  A table that [clean_data] returned cannot be
    cleaned again: it has no [categories] column of strings, so the second
    run raises [AttributeError] at line 41 and leaves the table as it
    is. *)
Theorem second_clean_fails df st out :
  clean_data df = (st, Ok out) ->
  clean_data out = (out, Raise AttributeError).
Proof.
  intros Hrun. rewrite clean_data_unfold.
  assert (decode_categories out = Raise AttributeError) as ->;
    [|reflexivity].
  unfold decode_categories.
  rewrite (str_of_int_columns _ _ (cleaned_categories_are_int df st out Hrun)).
  reflexivity.
Qed.

Lemma second_clean_fails_witness :
  clean_data Samples.three_rows_cleaned
  = (Samples.three_rows_cleaned, Raise AttributeError).
Proof.
  exact (second_clean_fails Samples.three_rows Samples.three_rows_after
           Samples.three_rows_cleaned eq_refl).
Defined.

(** C5 as stated fails: the second run on the table returned for the
    three sample records is an exception, not that table. *)
Lemma clean_twice_is_an_error :
  snd (clean_data Samples.three_rows) = Ok Samples.three_rows_cleaned
  /\ snd (clean_data Samples.three_rows_cleaned) = Raise AttributeError
  /\ snd (clean_data Samples.three_rows_cleaned)
     <> Ok Samples.three_rows_cleaned.
Proof.
  repeat split. discriminate.
Qed.

Lemma int_Raise s e : Py.int s = Raise e -> e = ValueError.
Proof.
  unfold Py.int.
  repeat match goal with
         | |- context [match ?x with _ => _ end] => destruct x
         end; intros H; congruence.
Qed.

Lemma to_int64_Raise cell e :
  to_int64 cell = Raise e -> e = ValueError \/ e = OverflowError.
Proof.
  unfold to_int64. destruct cell as [t|]; [|intros [= <-]; now left].
  destruct (Py.int t) as [z|e0] eqn:E; cbn [bind].
  - destruct (_ && _)%bool; [discriminate|]. intros [= <-]. now right.
  - intros [= <-]. left. exact (int_Raise t e0 E).
Qed.

Lemma mapM_Raise_inv {A B} (f : A -> result B) l e :
  mapM f l = Raise e -> exists x, In x l /\ f x = Raise e.
Proof.
  induction l as [|x l IH]; simpl; [discriminate|].
  destruct (f x) as [y|e0] eqn:E; cbn [bind].
  - destruct (mapM f l) as [ys|e1]; cbn [bind]; [discriminate|].
    intros [= <-]. destruct (IH eq_refl) as (z & Hz & Hf).
    exists z. split; [now right|exact Hf].
  - intros [= <-]. exists x. split; [now left|exact E].
Qed.

Lemma astype_int_Raise s e :
  astype_int s = Raise e -> e = ValueError \/ e = OverflowError.
Proof.
  destruct s as [l|l]; simpl; [|discriminate].
  destruct (mapM to_int64 l) as [v|e0] eqn:E; cbn [bind]; [discriminate|].
  intros [= <-]. apply mapM_Raise_inv in E as (c & _ & Hc).
  exact (to_int64_Raise c e0 Hc).
Qed.

Lemma str_Raise sel e : str sel = Raise e -> e = AttributeError.
Proof.
  destruct sel as [|[l|l] [|s sel]]; simpl; intros H; congruence.
Qed.

Lemma for_column_Raise_kind todo : forall frame e,
  for_column todo frame = Raise e ->
  e = AttributeError \/ e = ValueError \/ e = OverflowError.
Proof.
  induction todo as [|c todo IH]; intros frame e; cbn [for_column];
    [discriminate|].
  destruct (str (getitem c frame)) as [cells|e0] eqn:Hs; cbn [bind].
  2:{ intros [= <-]. left. exact (str_Raise _ _ Hs). }
  destruct (getitem c (setitem c (ObjCol (map (str_split_get "-" 1) cells))
                         frame)) as [|s [|s' l]]; cbn [bind];
    try (intros [= <-]; now left).
  destruct (astype_int s) as [conv|e0] eqn:Ha; cbn [bind].
  - apply IH.
  - intros [= <-]. right. exact (astype_int_Raise s e0 Ha).
Qed.

Lemma one_val_Raise todo frame e :
  one_val todo frame = Raise e -> e = AttributeError.
Proof.
  induction todo as [|c todo IH]; cbn [one_val]; [discriminate|].
  destruct (getitem c frame) as [|s [|s' l]]; cbn [bind];
    try (intros [= <-]; reflexivity).
  destruct (one_val todo frame) as [r|e0]; cbn [bind]; [discriminate|].
  intros [= <-]. now apply IH.
Qed.

Lemma one_val_incl todo frame r :
  one_val todo frame = Ok r -> incl r todo.
Proof.
  revert r. induction todo as [|c todo IH]; cbn [one_val]; intros r.
  - intros [= <-]. apply incl_refl.
  - destruct (getitem c frame) as [|s [|s' l]]; cbn [bind];
      try discriminate.
    destruct (one_val todo frame) as [r0|e0]; cbn [bind]; [|discriminate].
    intros [= <-]. specialize (IH r0 eq_refl).
    destruct (nunique s =? 1)%nat.
    + intros x [<-|Hx]; [now left|right; now apply IH].
    + intros x Hx. right. now apply IH.
Qed.

Lemma drop_incl names df :
  incl names (labels df) -> exists d, drop names df = Ok d.
Proof.
  intros H. unfold drop.
  assert (forallb (fun n => mem n (labels df)) names = true) as ->; [|eauto].
  apply forallb_forall. intros n Hn. apply mem_In. now apply H.
Qed.

Lemma clip_Raise lower upper df e :
  clip lower upper df = Raise e -> e = TypeError.
Proof.
  unfold clip.
  destruct (mapM _ (columns df)) as [cs|e0] eqn:E; cbn [bind]; [discriminate|].
  intros [= <-]. apply mapM_Raise_inv in E as (c & _ & Hc).
  destruct (snd c); congruence.
Qed.

Lemma clip_labels lower upper df out :
  clip lower upper df = Ok out -> labels out = labels df.
Proof.
  unfold clip.
  destruct (mapM _ (columns df)) as [cs|e0] eqn:E; cbn [bind]; [|discriminate].
  intros [= <-]. unfold labels. cbn [columns].
  revert cs E. induction (columns df) as [|c l IH]; intros cs; simpl.
  - now intros [= <-].
  - destruct (snd c) as [o|v]; cbn [bind]; [discriminate|].
    destruct (mapM _ l) as [cs'|]; cbn [bind]; [|discriminate].
    intros [= <-]. simpl. f_equal. now apply IH.
Qed.

Lemma colname_Raise x e :
  colname x = Raise e -> e = AttributeError \/ e = IndexError.
Proof.
  destruct x as [t|]; simpl; [|intros [= <-]; now left].
  destruct (split "-" t); [intros [= <-]; now right|discriminate].
Qed.

(** Lines 41-70 raise no [KeyError]: that is left to lines 73 and 79. *)
Lemma decode_categories_Raise df e :
  decode_categories df = Raise e -> e <> KeyError.
Proof.
  unfold decode_categories, getattr.
  destruct (getitem "categories" df) as [|s sel]; cbn [bind];
    [intros [= <-]; discriminate|].
  destruct (str (s :: sel)) as [cells|e0] eqn:Hs; cbn [bind].
  2:{ intros [= <-]. rewrite (str_Raise _ _ Hs). discriminate. }
  destruct (iloc0 (str_split_expand ";" (index df) cells)) as [row|e0] eqn:Hr;
    cbn [bind].
  2:{ intros [= <-]. unfold iloc0 in Hr.
      destruct (e_index _); [|discriminate Hr].
      injection Hr as <-. discriminate. }
  destruct (mapM colname row) as [names|e0] eqn:Hn; cbn [bind].
  2:{ intros [= <-]. apply mapM_Raise_inv in Hn as (x & _ & Hx).
      destruct (colname_Raise x e0 Hx) as [-> | ->]; discriminate. }
  destruct (set_columns names (str_split_expand ";" (index df) cells))
    as [c0|e0] eqn:Hc0; cbn [bind].
  2:{ intros [= <-]. unfold set_columns in Hc0.
      destruct (_ =? _)%nat; [discriminate Hc0|].
      injection Hc0 as <-. discriminate. }
  destruct (for_column (labels c0) c0) as [c1|e0] eqn:Hc1; cbn [bind].
  2:{ intros [= <-].
      destruct (for_column_Raise_kind _ _ _ Hc1) as [-> | [-> | ->]];
        discriminate. }
  destruct (clip 0 1 c1) as [c2|e0] eqn:Hc2; cbn [bind].
  2:{ intros [= <-]. rewrite (clip_Raise _ _ _ _ Hc2). discriminate. }
  destruct (one_val (labels c2) c2) as [ovc|e0] eqn:Ho; cbn [bind].
  2:{ intros [= <-]. rewrite (one_val_Raise _ _ _ Ho). discriminate. }
  destruct (drop_incl ovc c2 (one_val_incl _ _ _ Ho)) as (d & ->).
  discriminate.
Qed.

Lemma drop_duplicates_Raise subset T e :
  drop_duplicates subset T = Raise e -> e = KeyError.
Proof.
  unfold drop_duplicates. destruct (empty T); [discriminate|].
  destruct (forallb _ _); [discriminate|]. now intros [= <-].
Qed.

Lemma getitem_categories_fields df :
  getitem "categories" (mkDataFrame (index df) (fields df)) = [].
Proof.
  unfold getitem, fields. cbn [columns].
  induction (columns df) as [|c cs IH]; simpl; [reflexivity|].
  unfold non_category at 1.
  destruct (String.eqb (fst c) "categories") eqn:E; simpl; [exact IH|].
  now rewrite E.
Qed.

(** C6, as the code has it.  [clean_data] leaves the row labels and every
    column other than [categories] of the caller's table as they were.
    When lines 41-70 decode the categories, line 73 removes the
    [categories] column from the caller's table, whatever line 79 does
    next: the run then returns the deduplicated table or raises the
    [KeyError] of line 79.  When lines 41-70 raise, the caller's table is
    exactly as it was and the exception is theirs, never a [KeyError]; so
    the exception tells whether the column is gone. *)
Theorem clean_drops_categories_in_place df st r :
  clean_data df = (st, r) ->
  index st = index df
  /\ (forall n, n <> "categories" -> getitem n st = getitem n df)
  /\ match decode_categories df with
     | Ok categories =>
         st = mkDataFrame (index df) (fields df)
         /\ getitem "categories" st = []
         /\ r = drop_duplicates ["message"; "original"]
                  (concat_axis1 st categories)
         /\ (forall e, r = Raise e -> e = KeyError)
     | Raise e => st = df /\ r = Raise e /\ e <> KeyError
     end
  /\ ((exists out, r = Ok out) \/ r = Raise KeyError ->
      st = mkDataFrame (index df) (fields df))
  /\ (forall e, r = Raise e -> e <> KeyError -> st = df).
Proof.
  rewrite clean_data_unfold. intros H.
  destruct (decode_categories df) as [cats|e] eqn:Hdec.
  - destruct (decode_categories_Ok df cats Hdec) as (cells & res & Hsel & _).
    rewrite (drop_categories_present df _ _ Hsel) in H.
    injection H as <- <-. split; [reflexivity|].
    split; [|split; [repeat split|split]].
    + intros n Hn. now apply getitem_fields.
    + apply getitem_categories_fields.
    + intros e. apply drop_duplicates_Raise.
    + reflexivity.
    + intros e He Hne. apply drop_duplicates_Raise in He. contradiction.
  - pose proof (decode_categories_Raise df e Hdec) as Hne.
    injection H as <- <-. repeat split; [exact Hne|].
    intros [(out & E)|E]; [discriminate E|]. injection E as E. contradiction.
Qed.

Lemma clean_drops_categories_in_place_witness :
  index Samples.three_rows_after = index Samples.three_rows
  /\ (forall n, n <> "categories" ->
        getitem n Samples.three_rows_after = getitem n Samples.three_rows)
  /\ match decode_categories Samples.three_rows with
     | Ok categories =>
         Samples.three_rows_after
         = mkDataFrame (index Samples.three_rows) (fields Samples.three_rows)
         /\ getitem "categories" Samples.three_rows_after = []
         /\ Ok Samples.three_rows_cleaned
            = drop_duplicates ["message"; "original"]
                (concat_axis1 Samples.three_rows_after categories)
         /\ (forall e, Ok Samples.three_rows_cleaned = Raise e ->
                       e = KeyError)
     | Raise e =>
         Samples.three_rows_after = Samples.three_rows
         /\ Ok Samples.three_rows_cleaned = Raise e /\ e <> KeyError
     end
  /\ ((exists out, Ok Samples.three_rows_cleaned = Ok out)
      \/ Ok Samples.three_rows_cleaned = Raise KeyError ->
      Samples.three_rows_after
      = mkDataFrame (index Samples.three_rows) (fields Samples.three_rows))
  /\ (forall e, Ok Samples.three_rows_cleaned = Raise e -> e <> KeyError ->
        Samples.three_rows_after = Samples.three_rows).
Proof.
  exact (clean_drops_categories_in_place Samples.three_rows
           Samples.three_rows_after (Ok Samples.three_rows_cleaned) eq_refl).
Defined.

(** C6 as stated fails: after the call on the three sample records the
    caller's table has lost its [categories] column. *)
Lemma caller_table_loses_categories :
  fst (clean_data Samples.three_rows) = Samples.three_rows_after
  /\ getitem "categories" Samples.three_rows
     = [ObjCol [Some "related-1;request-0;offer-1";
                Some "related-0;request-2;offer-1";
                Some "related-0;request-1;offer-1"]]
  /\ getitem "categories" (fst (clean_data Samples.three_rows)) = []
  /\ fst (clean_data Samples.three_rows) <> Samples.three_rows.
Proof.
  repeat split. discriminate.
Qed.

(* ================================================================= *)
(** ** Tokens that stop [clean_data] *)

Lemma in_tokens t cells :
  In t (tokens cells) ->
  exists s j, In (Some s) cells /\ nth_error (split ";" s) j = Some t.
Proof.
  unfold tokens. intros H. apply in_flat_map in H as ([s|] & Hc & Ht);
    [|destruct Ht].
  destruct (In_nth_error _ _ Ht) as (j & Hj). eauto.
Qed.

Lemma in_combine_map (names : list string)
    (g : nat -> list (option string)) js j :
  length names = length js -> In j js ->
  exists n, In (n, g j) (combine names (map g js)).
Proof.
  revert js. induction names as [|n names IH]; intros [|k js] Hlen Hj;
    try discriminate Hlen; [destruct Hj|].
  injection Hlen as Hlen. destruct Hj as [->|Hj].
  - exists n. now left.
  - destruct (IH js Hlen Hj) as (m & Hm). exists m. now right.
Qed.

Lemma undecodable_column cells s j t e :
  In (Some s) cells ->
  nth_error (split ";" s) j = Some t ->
  token_value t = Raise e ->
  exists e', conv_col (map (token j) cells) = Raise e'.
Proof.
  intros Hin Hj Ht. unfold conv_col.
  apply (mapM_Raise to_int64 _ (str_split_get "-" 1 (token j (Some s))) e).
  - apply in_map. apply in_map. exact Hin.
  - simpl. rewrite Hj. exact Ht.
Qed.

Lemma undecodable_token_stops_decoding df cells t e :
  getitem "categories" df = [ObjCol cells] ->
  In t (tokens cells) ->
  token_value t = Raise e ->
  exists e', decode_categories df = Raise e'.
Proof.
  intros Hsel Hin Ht.
  destruct (in_tokens t cells Hin) as (s & j & Hs & Hj).
  unfold decode_categories, getattr. rewrite Hsel. cbn [bind str].
  pose proof (expanded_columns (index df) cells) as Hcols.
  assert (Hidx_e : e_index (str_split_expand ";" (index df) cells) = index df)
    by reflexivity.
  remember (str_split_expand ";" (index df) cells) as ex eqn:He. clear He.
  unfold iloc0, set_columns. rewrite Hidx_e, Hcols. clear Hidx_e Hcols.
  destruct (index df) as [|i0 idx]; [cbn [bind]; eauto|].
  set (w := expanded_width cells).
  set (g := fun j => map (token j) cells).
  cbn [bind].
  destruct (mapM colname _) as [names|] eqn:Hnames; [|cbn [bind]; eauto].
  cbn [bind].
  pose proof (mapM_length _ _ _ Hnames) as Hlen.
  rewrite !length_map, length_seq in Hlen.
  rewrite length_map, length_seq, Hlen, Nat.eqb_refl.
  cbn [bind]. unfold labels. cbn [columns].
  rewrite combine_objcols, fst_objcols.
  assert (Hjw : j < w).
  { pose proof (width_ge (map (option_map (split ";")) cells)
                  (Some (split ";" s))) as Hw.
    simpl in Hw. fold (expanded_width cells) in Hw. fold w in Hw.
    assert (nth_error (split ";" s) j <> None) as Hsome by congruence.
    apply nth_error_Some in Hsome.
    assert (In (Some (split ";" s)) (map (option_map (split ";")) cells)).
    { apply in_map_iff. exists (Some s). now split. }
    specialize (Hw H). lia. }
  destruct (in_combine_map names g (seq 0 w) j) as (n & Hn);
    [now rewrite length_seq|apply in_seq; lia|].
  destruct (undecodable_column cells s j t e Hs Hj Ht) as (e1 & He1).
  destruct (for_column_Raise (i0 :: idx) (combine names (map g (seq 0 w))) [])
    as (e2 & He2).
  { exists (n, g j), e1. split; [exact Hn|exact He1]. }
  simpl app in He2. rewrite He2. cbn [bind]. eauto.
Qed.

(** C7, as the code has it.  [clean_data] raises, returns no table and
    leaves the caller's table as it was, whenever some token of the
    [categories] column cannot be decoded: it has no hyphen, or what
    stands between its first and second hyphen is not an integer that
    [int()] reads (digits of any script, with a sign, single underscores
    and white space around) and [int64] holds.  This is the case when the
    category string of the first record is empty. *)
Theorem undecodable_token_aborts df cells :
  getitem "categories" df = [ObjCol cells] ->
  (exists t e, In t (tokens cells) /\ token_value t = Raise e)
  \/ (exists rest, cells = Some EmptyString :: rest) ->
  exists e, clean_data df = (df, Raise e).
Proof.
  intros Hsel Hbad.
  assert (exists t e, In t (tokens cells) /\ token_value t = Raise e)
    as (t & e & Hin & Ht).
  { destruct Hbad as [Hbad|(rest & ->)]; [exact Hbad|].
    exists EmptyString, ValueError. split; [now left|reflexivity]. }
  destruct (undecodable_token_stops_decoding df cells t e Hsel Hin Ht)
    as (e' & He').
  exists e'. now rewrite clean_data_unfold, He'.
Qed.

Lemma undecodable_token_aborts_witness :
  exists e,
    clean_data (Samples.table [Some "Help me"] [None] [Some "related"])
    = (Samples.table [Some "Help me"] [None] [Some "related"], Raise e).
Proof.
  apply (undecodable_token_aborts
           (Samples.table [Some "Help me"] [None] [Some "related"])
           [Some "related"] eq_refl).
  left. exists "related", ValueError. split; [now left|reflexivity].
Defined.

(** C7 as stated fails: the token [aid-12] is not a name, a hyphen and a
    single digit, and yet [clean_data] returns a table. *)
Lemma two_digit_token_is_accepted :
  In "aid-12" (tokens [Some "aid-12"; Some "aid-0"])
  /\ name_digit_shape "aid-12" = false
  /\ getitem "categories" Samples.two_digit_token
     = [ObjCol [Some "aid-12"; Some "aid-0"]]
  /\ snd (clean_data Samples.two_digit_token)
     = Ok Samples.two_digit_token_cleaned.
Proof.
  repeat split. now left.
Qed.

(* ================================================================= *)
(** ** [load_data] and [main] *)

Lemma flat_map_nil {A B} (f : A -> list B) l :
  (forall x, In x l -> f x = []) -> flat_map f l = [].
Proof.
  induction l as [|x l IH]; simpl; intros H; [reflexivity|].
  rewrite (H x (or_introl eq_refl)), IH; [reflexivity|].
  intros y Hy. apply H. now right.
Qed.

Lemma filter_nil {A} (f : A -> bool) l :
  (forall x, In x l -> f x = false) -> filter f l = [].
Proof.
  induction l as [|x l IH]; simpl; intros H; [reflexivity|].
  rewrite (H x (or_introl eq_refl)). apply IH.
  intros y Hy. apply H. now right.
Qed.

Lemma join_pairs_disjoint lkeys rkeys :
  (forall k, In k lkeys -> ~ In k rkeys) -> join_pairs lkeys rkeys = [].
Proof.
  intros H. unfold join_pairs. apply flat_map_nil. intros i Hi.
  rewrite filter_nil; [reflexivity|]. intros j Hj.
  apply in_seq in Hi, Hj.
  destruct (key_eq_dec (nth i lkeys []) (nth j rkeys [])) as [E|]; [|easy].
  exfalso. apply (H (nth i lkeys [])).
  - apply nth_In. lia.
  - rewrite E. apply nth_In. lia.
Qed.

Lemma take_nil s : values (take [] s) = [].
Proof. now destruct s. Qed.

(** Two sources that share the one label [id], an integer column in both,
    can always be merged. *)
Lemma merge_on_id left right a b :
  common_labels left right = ["id"] ->
  getitem "id" left = [IntCol a] ->
  getitem "id" right = [IntCol b] ->
  exists df, merge left right = Ok df.
Proof.
  intros Hon Hl Hr. unfold merge, key_dtypes_agree. rewrite Hon.
  simpl. rewrite Hl, Hr. simpl. eauto.
Qed.

(** C8, as the code has it.  [load_data] reads the two sources and returns
    what their [merge] gives, without a check, a message or a warning of
    its own.  When no row of one source has the identifier of a row of the
    other, the merge is defined as soon as the sources share the one
    integer column [id], and a merge that is defined gives the joined
    columns with no row. *)
Theorem disjoint_ids_join_empty
    (read_csv : string -> result DataFrame) mp cp messages categories t :
  read_csv mp = Ok messages ->
  read_csv cp = Ok categories ->
  (forall k,
      In k (join_keys (common_labels messages categories) messages) ->
      ~ In k (join_keys (common_labels messages categories) categories)) ->
  load_data read_csv mp cp t
  = (t ++ [ReadCsv mp; ReadCsv cp], merge messages categories)
  /\ (forall a b,
        common_labels messages categories = ["id"] ->
        getitem "id" messages = [IntCol a] ->
        getitem "id" categories = [IntCol b] ->
        exists df, merge messages categories = Ok df)
  /\ forall df,
       merge messages categories = Ok df ->
       index df = []
       /\ Forall (fun c => values (snd c) = []) (columns df)
       /\ labels df
          = labels messages
            ++ filter (fun n =>
                         negb (mem n (common_labels messages categories)))
                      (labels categories).
Proof.
  intros Hm Hc Hdisj. split; [|split].
  - unfold load_data, pd_read_csv, mbind, emit, lift, ret.
    rewrite Hm, Hc, <- app_assoc. simpl.
    now destruct (merge messages categories).
  - intros a b. apply merge_on_id.
  - intros df. unfold merge.
    destruct (common_labels messages categories) as [|n on_] eqn:Hon;
      [discriminate|].
    destruct (negb (forallb _ _)); [discriminate|].
    destruct (negb (key_dtypes_agree _ _ _)); [discriminate|].
    rewrite (join_pairs_disjoint _ _ Hdisj). simpl.
    intros H. injection H as <-. simpl. repeat split.
    + apply Forall_app. split; apply Forall_forall; intros c Hin;
        apply in_map_iff in Hin as (c0 & <- & _); apply take_nil.
    + unfold labels. simpl. rewrite map_app, !map_map. simpl.
      f_equal. now rewrite (filter_map_swap _ fst).
Qed.

Lemma disjoint_ids_join_empty_witness :
  load_data Samples.files "messages.csv" "categories.csv" []
  = ([] ++ [ReadCsv "messages.csv"; ReadCsv "categories.csv"],
     merge Samples.messages_source Samples.categories_source)
  /\ (forall a b,
        common_labels Samples.messages_source Samples.categories_source
        = ["id"] ->
        getitem "id" Samples.messages_source = [IntCol a] ->
        getitem "id" Samples.categories_source = [IntCol b] ->
        exists df,
          merge Samples.messages_source Samples.categories_source = Ok df)
  /\ forall df,
       merge Samples.messages_source Samples.categories_source = Ok df ->
       index df = []
       /\ Forall (fun c => values (snd c) = []) (columns df)
       /\ labels df
          = labels Samples.messages_source
            ++ filter (fun n =>
                         negb (mem n (common_labels Samples.messages_source
                                        Samples.categories_source)))
                      (labels Samples.categories_source).
Proof.
  apply (disjoint_ids_join_empty Samples.files "messages.csv"
           "categories.csv" Samples.messages_source
           Samples.categories_source [] eq_refl eq_refl).
  intros k Hl Hr. vm_compute in Hl, Hr.
  destruct Hl as [<-|[<-|[]]]; destruct Hr as [E|[E|[]]]; discriminate E.
Defined.

(** C8 as stated fails: on two sources whose identifiers do not meet,
    [load_data] returns the empty joined table; it raises nothing and
    prints nothing. *)
Lemma disjoint_ids_load_silently :
  load_data Samples.files "messages.csv" "categories.csv" []
  = ([ReadCsv "messages.csv"; ReadCsv "categories.csv"],
     Ok Samples.no_rows).
Proof. reflexivity. Qed.

(** C9.  With any number of arguments other than three (any [sys.argv] of
    length other than four), [main] prints the usage message and does
    nothing else: it reads no source, cleans nothing, writes nothing, and
    returns without an exception. *)
Theorem wrong_argc_prints_usage
    (read_csv : string -> result DataFrame)
    (to_sql : string -> string -> DataFrame -> result unit) argv t :
  length argv <> 4 ->
  main read_csv to_sql argv t = (t ++ [Print usage], Ok tt).
Proof.
  intros H. unfold main.
  destruct (Nat.eqb_spec (length argv) 4) as [E|_]; [contradiction|].
  reflexivity.
Qed.

Lemma wrong_argc_prints_usage_witness :
  main Samples.files Samples.any_engine
       ["process_data.py"; "messages.csv"] []
  = ([] ++ [Print usage], Ok tt).
Proof.
  apply (wrong_argc_prints_usage Samples.files Samples.any_engine
           ["process_data.py"; "messages.csv"] []).
  simpl. lia.
Defined.

(* ================================================================= *)
(** ** Masks, rows and first occurrences *)

Lemma values_select mask s :
  values (select_series mask s) = select mask (values s).
Proof. destruct s; simpl; now rewrite select_map. Qed.

Lemma select_In {A} mask (l : list A) k x :
  nth k mask false = true -> nth_error l k = Some x -> In x (select mask l).
Proof.
  revert l k. induction mask as [|b mask IH]; intros [|y l] [|k] Hm Hl;
    simpl in *; try discriminate.
  - subst b. injection Hl as ->. now left.
  - destruct b; [right|]; eapply IH; eauto.
Qed.

Lemma In_select {A} mask (l : list A) x :
  In x (select mask l) ->
  exists k, nth k mask false = true /\ nth_error l k = Some x.
Proof.
  revert l. induction mask as [|b mask IH]; intros [|y l] H; simpl in H;
    try contradiction.
  destruct b.
  - destruct H as [->|H]; [now exists 0|].
    destruct (IH l H) as (k & Hk & Hx). now exists (S k).
  - destruct (IH l H) as (k & Hk & Hx). now exists (S k).
Qed.

Lemma rows_length n : forall cols, length (rows n cols) = n.
Proof.
  induction n as [|n IH]; intros cols; simpl; [reflexivity|].
  now rewrite IH.
Qed.

Lemma rows_nth n : forall cols j,
  j < n -> nth j (rows n cols) [] = map (fun c => nth j c NaN) cols.
Proof.
  induction n as [|n IH]; intros cols [|j] Hj; simpl; try lia.
  - apply map_ext. now intros [|x c].
  - rewrite IH by lia. rewrite map_map. apply map_ext.
    intros [|x c]; [now destruct j|reflexivity].
Qed.

Lemma rows_select mask : forall (idx : list Z) cols,
  length idx = length mask ->
  Forall (fun c : list value => length c = length mask) cols ->
  rows (length (select mask idx)) (map (select mask) cols)
  = select mask (rows (length mask) cols).
Proof.
  induction mask as [|b mask IH]; intros [|i idx] cols Hidx Hcols;
    try discriminate Hidx; [reflexivity|].
  injection Hidx as Hidx.
  assert (Htl : Forall (fun c : list value => length c = length mask)
                       (map (@tl value) cols)).
  { apply Forall_forall. intros c Hc.
    apply in_map_iff in Hc as (c0 & <- & Hc0).
    rewrite Forall_forall in Hcols. specialize (Hcols c0 Hc0).
    destruct c0; [discriminate|]. simpl in *. lia. }
  assert (Hsel : map (select (b :: mask)) cols
                 = map (fun c => if b then hd NaN c :: select mask (tl c)
                                 else select mask (tl c)) cols).
  { apply map_ext_in. intros c Hc.
    rewrite Forall_forall in Hcols. specialize (Hcols c Hc).
    destruct c; [discriminate|]. reflexivity. }
  rewrite Hsel. simpl. destruct b; simpl.
  - rewrite !map_map. simpl. f_equal.
    rewrite <- (IH idx (map (@tl value) cols) Hidx Htl).
    now rewrite map_map.
  - rewrite <- (IH idx (map (@tl value) cols) Hidx Htl).
    now rewrite map_map.
Qed.

Lemma duplicated_keys_length keys :
  forall seen, length (duplicated_keys seen keys) = length keys.
Proof.
  induction keys as [|k keys IH]; intros seen; simpl;
    [reflexivity|now rewrite IH].
Qed.

(** A row is marked when its key stands in an earlier row. *)
Lemma duplicated_keys_nth keys : forall seen j,
  j < length keys ->
  nth j (duplicated_keys seen keys) false = true
  <-> In (nth j keys []) seen
      \/ exists i, i < j /\ nth i keys [] = nth j keys [].
Proof.
  induction keys as [|k keys IH]; intros seen [|j] Hj; simpl in *; try lia.
  - destruct (in_dec key_eq_dec k seen) as [Hin|Hout]; split; auto.
    + discriminate.
    + intros [Hin|(i & Hi & _)]; [contradiction|lia].
  - rewrite (IH (k :: seen) j) by lia. simpl. split.
    + intros [[E|Hin]|(i & Hi & E)]; auto.
      * right. exists 0. split; [lia|exact E].
      * right. exists (S i). split; [lia|exact E].
    + intros [Hin|([|i] & Hi & E)]; auto.
      right. exists i. split; [lia|exact E].
Qed.

Lemma keep_first_nth keys j :
  j < length keys ->
  nth j (map negb (duplicated_keys [] keys)) false = true
  <-> forall i, i < j -> nth i keys [] <> nth j keys [].
Proof.
  intros Hj.
  change false with (negb true). rewrite map_nth.
  rewrite (nth_indep _ true false)
    by now rewrite duplicated_keys_length.
  rewrite negb_true_iff, <- not_true_iff_false.
  rewrite (duplicated_keys_nth keys [] j Hj). split.
  - intros H i Hi E. apply H. right. now exists i.
  - intros H [[]|(i & Hi & E)]. exact (H i Hi E).
Qed.

(** The rows kept have pairwise different keys. *)
Lemma keep_first_NoDup keys : forall seen,
  NoDup (select (map negb (duplicated_keys seen keys)) keys)
  /\ forall k, In k (select (map negb (duplicated_keys seen keys)) keys) ->
               ~ In k seen.
Proof.
  induction keys as [|k keys IH]; intros seen; simpl.
  - split; [constructor|intros k []].
  - destruct (IH (k :: seen)) as [Hnd Hout].
    destruct (in_dec key_eq_dec k seen) as [Hin|Hnew]; simpl.
    + split; [exact Hnd|]. intros x Hx Hseen.
      apply (Hout x Hx). now right.
    + split.
      * constructor; [|exact Hnd]. intros Hk. apply (Hout k Hk). now left.
      * intros x [<-|Hx]; [exact Hnew|].
        intros Hseen. apply (Hout x Hx). now right.
Qed.

Lemma keep_first_complete keys : forall seen k,
  In k keys ->
  In k seen \/ In k (select (map negb (duplicated_keys seen keys)) keys).
Proof.
  induction keys as [|k0 keys IH]; intros seen k Hin; [destruct Hin|].
  simpl. destruct Hin as [->|Hin].
  - destruct (in_dec key_eq_dec k seen); simpl; auto.
  - destruct (IH (k0 :: seen) k Hin) as [[->|Hs]|Hsel].
    + destruct (in_dec key_eq_dec k seen); simpl; auto.
    + now left.
    + destruct (in_dec key_eq_dec k0 seen); simpl; auto.
Qed.

(* ================================================================= *)
(** ** Line 79: deduplication *)

Lemma filter_key_fields df :
  filter is_key (fields df) = filter is_key (columns df).
Proof.
  unfold fields. induction (columns df) as [|c cs IH]; simpl;
    [reflexivity|].
  unfold non_category at 1, is_key at 2, key_fields, mem. simpl.
  destruct (String.eqb_spec (fst c) "categories") as [E|E]; simpl.
  - rewrite E. simpl. exact IH.
  - unfold is_key at 1, key_fields, mem. simpl.
    destruct (String.eqb (fst c) "message" || (String.eqb (fst c) "original" || false));
      [now rewrite IH|exact IH].
Qed.

Lemma filter_on_columns (P : string * Series -> bool) F cs :
  (forall c s, P (fst c, s) = P c) ->
  filter P (on_columns F cs) = on_columns F (filter P cs).
Proof.
  intros HP. unfold on_columns. induction cs as [|c cs IH]; simpl;
    [reflexivity|].
  rewrite HP. destruct (P c); simpl; now rewrite IH.
Qed.

Lemma key_columns_cleaned idx df cats :
  (forall c, In c cats -> ~ In (fst c) key_fields) ->
  key_columns key_fields (mkDataFrame idx (fields df ++ cats))
  = key_columns key_fields df.
Proof.
  intros Hcats. unfold key_columns. cbn [columns].
  change (fun c : string * Series => mem (fst c) key_fields) with is_key.
  rewrite filter_app, filter_key_fields.
  rewrite (filter_nil is_key cats), app_nil_r; [reflexivity|].
  intros c Hc. apply mem_false. now apply Hcats.
Qed.

Lemma key_columns_selected mask idx cs :
  key_columns key_fields
    (mkDataFrame idx (on_columns (select_series mask) cs))
  = map (select mask) (key_columns key_fields (mkDataFrame idx cs)).
Proof.
  unfold key_columns. cbn [columns].
  change (fun c : string * Series => mem (fst c) key_fields) with is_key.
  rewrite filter_on_columns by reflexivity.
  unfold on_columns. rewrite !map_map. apply map_ext.
  intros c. apply values_select.
Qed.

Lemma drop_duplicates_Ok subset T out :
  columns T <> [] -> index T <> [] ->
  drop_duplicates subset T = Ok out ->
  (forall n, In n subset -> In n (labels T))
  /\ out = select_rows (map negb (duplicated subset T)) T.
Proof.
  intros Hc Hi. unfold drop_duplicates, empty.
  destruct (index T); [congruence|]. destruct (columns T) eqn:E; [congruence|].
  destruct (forallb _ _) eqn:Hall; [|discriminate].
  intros H. injection H as <-. split; [|reflexivity].
  intros n Hn. rewrite forallb_forall in Hall. now apply mem_In, Hall.
Qed.

Lemma kept_length df : length (kept df) = length (index df).
Proof.
  unfold kept, duplicated, row_keys.
  now rewrite length_map, duplicated_keys_length, rows_length.
Qed.

(** A successful run on a table with a [message] column, when no category
    column that survives bears the label of a key field: the rows returned
    are the rows of the input that [kept] marks. *)
Lemma clean_data_dedup df st out :
  In "message" (labels df) ->
  (forall n, In n (category_schema df out) -> ~ In n key_fields) ->
  clean_data df = (st, Ok out) ->
  exists cats,
    (forall c, In c cats -> ~ In (fst c) key_fields)
    /\ index out = select (kept df) (index df)
    /\ columns out = on_columns (select_series (kept df)) (fields df ++ cats).
Proof.
  intros Hmsg Hfree Hrun.
  destruct (clean_data_Ok df st out Hrun) as (cats & Hdec & _ & Hdd).
  destruct (decode_categories_Ok df cats Hdec)
    as (cells & res & _ & Hidx & _ & _ & _ & ->).
  simpl in Hdd. fold (pruned res) in Hdd.
  destruct (drop_duplicates_thins _ _ _ Hdd) as (F & _ & Hcols).
  simpl in Hcols.
  assert (Hcats : forall c, In c (pruned res) -> ~ In (fst c) key_fields).
  { intros c Hc. apply Hfree. unfold category_schema.
    rewrite (category_columns_on F df (pruned res) out Hcols).
    rewrite fst_on_columns. now apply in_map. }
  assert (Hne : fields df ++ pruned res <> []).
  { unfold labels in Hmsg. apply in_map_iff in Hmsg as (c & Hc & Hin).
    assert (In c (fields df)).
    { apply filter_In. split; [exact Hin|].
      unfold non_category. now rewrite Hc. }
    destruct (fields df); [contradiction|discriminate]. }
  destruct (drop_duplicates_Ok key_fields
              (mkDataFrame (index df) (fields df ++ pruned res)) out
              Hne Hidx Hdd) as [_ ->].
  assert (duplicated key_fields
            (mkDataFrame (index df) (fields df ++ pruned res))
          = duplicated key_fields df) as Hdup.
  { unfold duplicated, row_keys. simpl.
    now rewrite (key_columns_cleaned _ _ _ Hcats). }
  exists (pruned res). unfold select_rows. simpl. rewrite Hdup.
  repeat split. exact Hcats.
Qed.

Lemma row_keys_cleaned df out cats :
  well_formed df ->
  (forall c, In c cats -> ~ In (fst c) key_fields) ->
  index out = select (kept df) (index df) ->
  columns out = on_columns (select_series (kept df)) (fields df ++ cats) ->
  row_keys key_fields out = select (kept df) (row_keys key_fields df).
Proof.
  intros Hwf Hcats Hidx Hcols. unfold row_keys at 1.
  assert (key_columns key_fields out
          = map (select (kept df)) (key_columns key_fields df)) as ->.
  { destruct out as [oi oc]. simpl in *. subst oc.
    rewrite key_columns_selected.
    now rewrite (key_columns_cleaned _ _ _ Hcats). }
  rewrite Hidx, rows_select.
  - unfold row_keys. now rewrite kept_length.
  - now rewrite kept_length.
  - rewrite kept_length. unfold key_columns.
    apply Forall_forall. intros c Hc.
    apply in_map_iff in Hc as (c0 & <- & Hc0).
    apply filter_In in Hc0 as [Hc0 _].
    unfold well_formed in Hwf. rewrite Forall_forall in Hwf.
    now apply Hwf.
Qed.

Lemma firstn_on_columns F a b :
  firstn (length a) (on_columns F (a ++ b)) = on_columns F a.
Proof.
  unfold on_columns. rewrite map_app.
  rewrite <- (length_map (fun c : string * Series => (fst c, F (snd c))) a).
  rewrite firstn_app, firstn_all, Nat.sub_diag. simpl.
  now rewrite app_nil_r.
Qed.

(** A successful run on a table with a [message] column, when no category
    column that survives bears the label of a key field: the table
    returned is the rows that [kept] marks of the fields and of the decoded
    columns, side by side. *)
Lemma clean_data_rows df st out :
  In "message" (labels df) ->
  (forall n, In n (category_schema df out) -> ~ In n key_fields) ->
  clean_data df = (st, Ok out) ->
  exists cells res,
    getitem "categories" df = [ObjCol cells]
    /\ match cells with
       | [] => res = []
       | c0 :: _ =>
           exists s0, c0 = Some s0
                      /\ map fst res = map token_name (split ";" s0)
       end
    /\ Forall2 (fun j r => decoded_from cells j (snd r))
               (seq 0 (length res)) res
    /\ (forall c, In c (pruned res) -> ~ In (fst c) key_fields)
    /\ index out = select (kept df) (index df)
    /\ columns out
       = on_columns (select_series (kept df)) (fields df ++ pruned res).
Proof.
  intros Hmsg Hfree Hrun.
  destruct (clean_data_Ok df st out Hrun) as (cats & Hdec & _ & Hdd).
  destruct (decode_categories_Ok df cats Hdec)
    as (cells & res & Hsel & Hidx & _ & Hnames & Hvals & ->).
  simpl in Hdd. fold (pruned res) in Hdd.
  destruct (drop_duplicates_thins _ _ _ Hdd) as (F & _ & Hcols).
  simpl in Hcols.
  assert (Hcats : forall c, In c (pruned res) -> ~ In (fst c) key_fields).
  { intros c Hc. apply Hfree. unfold category_schema.
    rewrite (category_columns_on F df (pruned res) out Hcols).
    rewrite fst_on_columns. now apply in_map. }
  assert (Hne : fields df ++ pruned res <> []).
  { unfold labels in Hmsg. apply in_map_iff in Hmsg as (c & Hc & Hin).
    assert (In c (fields df)).
    { apply filter_In. split; [exact Hin|].
      unfold non_category. now rewrite Hc. }
    destruct (fields df); [contradiction|discriminate]. }
  destruct (drop_duplicates_Ok key_fields
              (mkDataFrame (index df) (fields df ++ pruned res)) out
              Hne Hidx Hdd) as [_ ->].
  assert (duplicated key_fields
            (mkDataFrame (index df) (fields df ++ pruned res))
          = duplicated key_fields df) as Hdup.
  { unfold duplicated, row_keys. simpl.
    now rewrite (key_columns_cleaned _ _ _ Hcats). }
  exists cells, res. unfold select_rows. simpl. rewrite Hdup.
  split; [exact Hsel|]. split; [exact Hnames|]. split; [exact Hvals|].
  split; [exact Hcats|]. split; reflexivity.
Qed.

(** C2.  Two records with the same message and the same original both
    survive when the category that tells them apart is itself called
    [message]: line 76 puts the decoded column beside the text column of
    that label, and line 79 then takes both into the key.  The table
    returned has two rows with the pair (Help me, Aidez-moi). *)
Theorem category_named_message_keeps_both :
  getitem "message" Samples.category_named_message
  = [ObjCol [Some "Help me"; Some "Help me"]]
  /\ getitem "original" Samples.category_named_message
     = [ObjCol [Some "Aidez-moi"; Some "Aidez-moi"]]
  /\ getitem "categories" Samples.category_named_message
     = [ObjCol [Some "message-1"; Some "message-0"]]
  /\ snd (clean_data Samples.category_named_message)
     = Ok Samples.category_named_message_cleaned
  /\ index Samples.category_named_message_cleaned = [0; 1]%Z
  /\ getitem "message" Samples.category_named_message_cleaned
     = [ObjCol [Some "Help me"; Some "Help me"]; IntCol [1; 0]%Z]
  /\ getitem "original" Samples.category_named_message_cleaned
     = [ObjCol [Some "Aidez-moi"; Some "Aidez-moi"]]
  /\ row_keys key_fields Samples.category_named_message_cleaned
     = [[VStr "Help me"; VStr "Aidez-moi"; VInt 1];
        [VStr "Help me"; VStr "Aidez-moi"; VInt 0]].
Proof. repeat split. Qed.

Lemma three_rows_well_formed : well_formed Samples.three_rows.
Proof. repeat constructor. Defined.

Lemma three_rows_no_key_category n :
  In n (category_schema Samples.three_rows Samples.three_rows_cleaned) ->
  ~ In n key_fields.
Proof.
  intros [<-|[<-|[]]] [E|[E|[]]]; discriminate E.
Defined.

(* ================================================================= *)
(** ** Missing originals *)

Lemma getitem_In n df s sel : getitem n df = s :: sel -> In n (labels df).
Proof.
  unfold getitem, labels. intros H.
  assert (Hin : In s (map snd (filter (fun c => String.eqb (fst c) n)
                                      (columns df))))
    by (rewrite H; now left).
  apply in_map_iff in Hin as (c & _ & Hc). apply filter_In in Hc as [Hc E].
  apply String.eqb_eq in E. subst n. now apply in_map.
Qed.

Lemma in_getitem c df : In c (columns df) -> In (snd c) (getitem (fst c) df).
Proof.
  intros H. unfold getitem. apply in_map. apply filter_In.
  split; [exact H|apply String.eqb_refl].
Qed.

Lemma nth_values l i x :
  nth_error l i = Some x ->
  nth i (values (ObjCol l)) NaN
  = match x with Some s => VStr s | None => NaN end.
Proof.
  simpl. revert i. induction l as [|y l IH]; intros [|i] H; simpl in *;
    try discriminate.
  - now injection H as ->.
  - now apply IH.
Qed.

(** Two records with the same message, both without original, have the
    same key. *)
Lemma null_original_same_key df msgs origs i j m :
  getitem "message" df = [ObjCol msgs] ->
  getitem "original" df = [ObjCol origs] ->
  i < length (index df) -> j < length (index df) ->
  nth_error msgs i = Some m -> nth_error msgs j = Some m ->
  nth_error origs i = Some None -> nth_error origs j = Some None ->
  nth i (row_keys key_fields df) [] = nth j (row_keys key_fields df) [].
Proof.
  intros Hm Ho Hi Hj Hmi Hmj Hoi Hoj. unfold row_keys.
  rewrite !rows_nth by assumption. apply map_ext_in.
  intros c Hc. unfold key_columns in Hc.
  apply in_map_iff in Hc as (c0 & <- & Hc0).
  apply filter_In in Hc0 as [Hc0 Hkey].
  pose proof (in_getitem c0 df Hc0) as Hsel.
  apply mem_In in Hkey. destruct Hkey as [E|[E|[]]]; rewrite <- E in Hsel.
  - rewrite Hm in Hsel. destruct Hsel as [<-|[]].
    now rewrite (nth_values _ _ _ Hmi), (nth_values _ _ _ Hmj).
  - rewrite Ho in Hsel. destruct Hsel as [<-|[]].
    now rewrite (nth_values _ _ _ Hoi), (nth_values _ _ _ Hoj).
Qed.

(** C10.  Two records with the same message and no original both survive
    when the category that tells them apart is itself called [original]:
    the decoded column stands beside the text column of that label and
    line 79 takes both into the key.  The missing originals do compare
    equal; the records differ in the key by the decoded value alone. *)
Theorem category_named_original_keeps_both :
  getitem "message" Samples.category_named_original
  = [ObjCol [Some "Water"; Some "Water"]]
  /\ getitem "original" Samples.category_named_original
     = [ObjCol [None; None]]
  /\ getitem "categories" Samples.category_named_original
     = [ObjCol [Some "original-0"; Some "original-1"]]
  /\ snd (clean_data Samples.category_named_original)
     = Ok Samples.category_named_original_cleaned
  /\ index Samples.category_named_original_cleaned = [0; 1]%Z
  /\ getitem "original" Samples.category_named_original_cleaned
     = [ObjCol [None; None]; IntCol [0; 1]%Z]
  /\ row_keys key_fields Samples.category_named_original_cleaned
     = [[VStr "Water"; NaN; VInt 0]; [VStr "Water"; NaN; VInt 1]].
Proof. repeat split. Qed.

Lemma null_originals_well_formed : well_formed Samples.null_originals.
Proof. repeat constructor. Defined.

Lemma null_originals_no_key_category n :
  In n (category_schema Samples.null_originals
          Samples.null_originals_cleaned) ->
  ~ In n key_fields.
Proof.
  intros [<-|[<-|[]]] [E|[E|[]]]; discriminate E.
Defined.

(* ================================================================= *)
(** ** Tables that [clean_data] turns down at once *)

(** X1.  A table without a [categories] column, with several of them, or
    with one that is not a column of strings, is turned down at line 41
    with [AttributeError], before anything is changed. *)
Theorem clean_data_needs_string_categories df :
  (forall cells, getitem "categories" df <> [ObjCol cells]) ->
  clean_data df = (df, Raise AttributeError).
Proof.
  intros H. rewrite clean_data_unfold.
  assert (decode_categories df = Raise AttributeError) as ->; [|reflexivity].
  unfold decode_categories, getattr.
  destruct (getitem "categories" df) as [|[l|l] [|s sel]] eqn:E;
    try reflexivity.
  now destruct (H l).
Qed.

Lemma clean_data_needs_string_categories_witness :
  clean_data Samples.messages_source
  = (Samples.messages_source, Raise AttributeError).
Proof.
  apply (clean_data_needs_string_categories Samples.messages_source).
  intros cells H. discriminate H.
Defined.

(** X2.  A table with no rows is turned down, whatever its columns:
    [AttributeError] at line 41 or, when it has a [categories] column of
    strings, [IndexError] at line 44; the table is left as it was. *)
Theorem clean_data_no_rows df :
  index df = [] ->
  exists e, (e = AttributeError \/ e = IndexError)
            /\ clean_data df = (df, Raise e).
Proof.
  intros Hidx. rewrite clean_data_unfold. unfold decode_categories.
  destruct (sel <- getattr "categories" df;; str sel) as [cells|e] eqn:E.
  - exists IndexError. split; [now right|].
    cbn [bind]. unfold iloc0.
    assert (e_index (str_split_expand ";" (index df) cells) = index df)
      as -> by reflexivity.
    now rewrite Hidx.
  - exists AttributeError. split; [now left|].
    unfold getattr in E.
    destruct (getitem "categories" df) as [|[l|l] [|s sel]];
      simpl in E; try discriminate E; now injection E as <-.
Qed.

Lemma clean_data_no_rows_witness :
  exists e, (e = AttributeError \/ e = IndexError)
            /\ clean_data Samples.no_rows = (Samples.no_rows, Raise e).
Proof.
  exact (clean_data_no_rows Samples.no_rows eq_refl).
Defined.

(* ================================================================= *)
(** ** What every table returned has *)

Lemma select_length_le {A} mask (l : list A) :
  length (select mask l) <= length l.
Proof.
  revert l. induction mask as [|b mask IH]; intros [|x l]; simpl; try lia.
  specialize (IH l). destruct b; simpl; lia.
Qed.

Lemma kept_rows_head subset T i0 idx :
  index T = i0 :: idx ->
  exists rest,
    select (map negb (duplicated subset T)) (index T) = i0 :: rest.
Proof.
  intros H. unfold duplicated, row_keys. rewrite H. simpl. eauto.
Qed.

(** X3.  The table returned is never without rows: the first record of the
    input always survives, at the head; the row labels returned are row
    labels of the input, no more of them than the input has. *)
Theorem first_record_survives df st out :
  clean_data df = (st, Ok out) ->
  exists l0 rest,
    hd_error (index df) = Some l0
    /\ index out = l0 :: rest
    /\ incl (index out) (index df)
    /\ length (index out) <= length (index df).
Proof.
  intros Hrun.
  destruct (clean_data_Ok df st out Hrun) as (cats & Hdec & _ & Hdd).
  destruct (decode_categories_Ok df cats Hdec)
    as (cells & res & _ & Hidx & _ & _ & _ & _).
  destruct (index df) as [|l0 idx] eqn:E; [congruence|].
  exists l0. unfold drop_duplicates in Hdd.
  destruct (empty _).
  - injection Hdd as <-. simpl. exists idx.
    repeat split; [apply incl_refl|lia].
  - destruct (forallb _ _); [|discriminate].
    injection Hdd as <-. unfold select_rows. cbn [index].
    destruct (kept_rows_head key_fields
                (mkDataFrame (l0 :: idx) (fields df ++ columns cats))
                l0 idx eq_refl) as (rest & Hrest).
    cbn [index] in Hrest. exists rest. repeat split.
    + exact Hrest.
    + apply select_incl.
    + apply select_length_le.
Qed.

Lemma first_record_survives_witness :
  exists l0 rest,
    hd_error (index Samples.three_rows) = Some l0
    /\ index Samples.three_rows_cleaned = l0 :: rest
    /\ incl (index Samples.three_rows_cleaned) (index Samples.three_rows)
    /\ length (index Samples.three_rows_cleaned)
       <= length (index Samples.three_rows).
Proof.
  exact (first_record_survives Samples.three_rows Samples.three_rows_after
           Samples.three_rows_cleaned eq_refl).
Defined.

(** X4.  A table returned with at least one column has a column labelled
    [message] and one labelled [original]: line 79 raises [KeyError]
    otherwise.  Only a table left without any column passes without
    them. *)
Theorem cleaned_has_key_fields df st out :
  clean_data df = (st, Ok out) ->
  columns out <> [] ->
  In "message" (labels out) /\ In "original" (labels out).
Proof.
  intros Hrun Hne.
  destruct (clean_data_Ok df st out Hrun) as (cats & Hdec & _ & Hdd).
  destruct (decode_categories_Ok df cats Hdec)
    as (cells & res & _ & Hidx & _ & _ & _ & _).
  set (T := mkDataFrame (index df) (fields df ++ columns cats)) in *.
  assert (HT : columns T <> []).
  { intros E. unfold drop_duplicates, empty in Hdd. rewrite E in Hdd.
    destruct (index T); injection Hdd as <-; now apply Hne. }
  destruct (drop_duplicates_Ok key_fields T out HT Hidx Hdd) as [Hin ->].
  unfold labels, select_rows. cbn [columns]. rewrite map_map. simpl.
  split; apply Hin; simpl; auto.
Qed.

Lemma cleaned_has_key_fields_witness :
  In "message" (labels Samples.three_rows_cleaned)
  /\ In "original" (labels Samples.three_rows_cleaned).
Proof.
  apply (cleaned_has_key_fields Samples.three_rows Samples.three_rows_after
           Samples.three_rows_cleaned eq_refl).
  discriminate.
Defined.

(** X5.  A category column survives only if it tells records apart in the
    input: at its place, the token of some record clamps to 0 and the
    token of some record clamps to 1. *)
Theorem surviving_category_has_both_values df st out cells c :
  getitem "categories" df = [ObjCol cells] ->
  clean_data df = (st, Ok out) ->
  In c (category_columns df out) ->
  exists j,
    (forall s0 rest, cells = Some s0 :: rest ->
       nth_error (map token_name (split ";" s0)) j = Some (fst c))
    /\ (exists cell t, In cell cells /\ token j cell = Some t
                       /\ decode_clamp t = Ok 0%Z)
    /\ (exists cell t, In cell cells /\ token j cell = Some t
                       /\ decode_clamp t = Ok 1%Z).
Proof.
  intros Hsel Hrun Hc.
  destruct (clean_data_columns df st out Hrun)
    as (cells' & res & F & Hsel' & _ & Hnd & Hnames & Hvals & HF & _ & Hcat).
  rewrite Hsel in Hsel'. injection Hsel' as <-.
  rewrite Hcat in Hc. apply in_on_columns in Hc as (c0 & Hc0 & ->).
  apply in_pruned in Hc0 as (n & v & -> & Hin & Hone).
  destruct (decoded_column_at cells res n v _ Hnd eq_refl Hvals Hin)
    as (j & Hj & Hdec & _).
  assert (Hv : v <> []).
  { intros ->. apply Forall2_length in Hdec.
    destruct cells; [|discriminate]. now subst res. }
  assert (Hbin : forall z, In z v -> z = 0%Z \/ z = 1%Z).
  { intros z Hz. destruct (Forall2_In_r _ _ _ _ Hdec Hz)
      as (cell & _ & t & _ & Ht).
    now apply decode_clamp_binary in Ht. }
  assert (Hn : nunique (IntCol v) <> 1).
  { unfold one_valued in Hone. simpl in Hone.
    now apply Nat.eqb_neq in Hone. }
  destruct (binary_not_constant v Hv Hbin Hn) as [H0 H1].
  exists j. simpl. repeat split.
  - intros s0 rest ->. destruct Hnames as (s0' & E & Hn').
    injection E as <-. now rewrite <- Hn'.
  - destruct (Forall2_In_r _ _ _ _ Hdec H0) as (cell & Hcell & t & Ht & Hz).
    eauto.
  - destruct (Forall2_In_r _ _ _ _ Hdec H1) as (cell & Hcell & t & Ht & Hz).
    eauto.
Qed.

Lemma surviving_category_has_both_values_witness :
  exists j,
    (forall s0 rest,
        [Some "related-1;request-0;offer-1";
         Some "related-0;request-2;offer-1";
         Some "related-0;request-1;offer-1"] = Some s0 :: rest ->
        nth_error (map token_name (split ";" s0)) j
        = Some (fst ("request", IntCol [0; 1]%Z)))
    /\ (exists cell t,
          In cell [Some "related-1;request-0;offer-1";
                   Some "related-0;request-2;offer-1";
                   Some "related-0;request-1;offer-1"]
          /\ token j cell = Some t /\ decode_clamp t = Ok 0%Z)
    /\ (exists cell t,
          In cell [Some "related-1;request-0;offer-1";
                   Some "related-0;request-2;offer-1";
                   Some "related-0;request-1;offer-1"]
          /\ token j cell = Some t /\ decode_clamp t = Ok 1%Z).
Proof.
  apply (surviving_category_has_both_values Samples.three_rows
           Samples.three_rows_after Samples.three_rows_cleaned _
           ("request", IntCol [0; 1]%Z) eq_refl eq_refl).
  right. now left.
Defined.

(* ================================================================= *)
(** ** When lines 41-70 go through *)

(** Lines 41-52 on a table with rows and a [categories] column of
    strings: what is left is the reading of the names and the work on the
    columns. *)
Lemma decode_categories_eq df cells :
  getitem "categories" df = [ObjCol cells] ->
  index df <> [] ->
  decode_categories df
  = (names <- mapM colname
                (map (fun j => match map (token j) cells with
                               | x :: _ => x
                               | [] => None
                               end)
                     (seq 0 (expanded_width cells))) ;;
     let pend := combine names
                   (map (fun j => map (token j) cells)
                        (seq 0 (expanded_width cells))) in
     categories <- for_column (map fst pend)
                     (mkDataFrame (index df) (objcols pend)) ;;
     categories <- clip 0 1 categories ;;
     one_val_cols <- one_val (labels categories) categories ;;
     drop one_val_cols categories).
Proof.
  intros Hsel Hidx. unfold decode_categories, getattr.
  rewrite Hsel. cbn [bind str].
  pose proof (expanded_columns (index df) cells) as Hcols.
  assert (Hidx_e : e_index (str_split_expand ";" (index df) cells) = index df)
    by reflexivity.
  remember (str_split_expand ";" (index df) cells) as ex eqn:He. clear He.
  unfold iloc0, set_columns. rewrite Hidx_e, Hcols. clear Hidx_e Hcols.
  destruct (index df) as [|i0 idx]; [congruence|].
  rewrite map_map. cbn [bind].
  destruct (mapM colname _) as [names|] eqn:Hnames; [|reflexivity].
  cbn [bind].
  pose proof (mapM_length _ _ _ Hnames) as Hlen.
  rewrite length_map, length_seq in Hlen.
  rewrite length_map, length_seq, Hlen, Nat.eqb_refl.
  cbn [bind]. unfold labels. cbn [columns].
  now rewrite combine_objcols, fst_objcols.
Qed.

Lemma Forall2_nth_error_l {A B} (R : A -> B -> Prop) l r k x :
  Forall2 R l r -> nth_error l k = Some x ->
  exists y, nth_error r k = Some y /\ R x y.
Proof.
  intros H. revert k. induction H as [|a b l r Hab _ IH]; intros [|k] Hk;
    simpl in Hk; try discriminate.
  - injection Hk as <-. exists b. now split.
  - now apply IH.
Qed.

Lemma decode_clamp_token_value t z :
  decode_clamp t = Ok z -> exists y, token_value t = Ok y.
Proof.
  unfold decode_clamp. destruct (token_value t) as [y|]; [eauto|discriminate].
Qed.

(** X6.  A run that returns a table has met a uniform [categories] column:
    the first record has a category string whose names are distinct, and
    every record, the first included, has a string of as many tokens, all
    of which can be decoded.  Rows with more or fewer tokens, a missing
    string or a repeated name stop the run. *)
Theorem clean_needs_uniform_records df st out c0 rest :
  getitem "categories" df = [ObjCol (c0 :: rest)] ->
  clean_data df = (st, Ok out) ->
  exists s0, c0 = Some s0 /\ decodable (c0 :: rest) s0.
Proof.
  intros Hsel Hrun.
  destruct (clean_data_Ok df st out Hrun) as (cats & Hdec & _ & _).
  destruct (decode_categories_Ok df cats Hdec)
    as (cells & res & Hsel' & Hidx & Hnd & Hnames & Hvals & _).
  rewrite Hsel in Hsel'. injection Hsel' as <-.
  destruct Hnames as (s0 & -> & Hnames).
  rewrite (decode_categories_eq df _ Hsel Hidx) in Hdec.
  destruct (mapM colname _) as [names|] eqn:Hn; [|discriminate].
  simpl map in Hn.
  destruct (first_row_names (Some s0) rest names Hn) as (s0' & E & Hw & _).
  injection E as <-. clear Hdec Hn.
  assert (Hlen : length res = length (split ";" s0)).
  { rewrite <- (length_map fst res), Hnames. apply length_map. }
  exists s0. split; [reflexivity|]. split; [now rewrite <- Hnames|].
  intros cell Hcell.
  assert (Htok : forall j, j < length (split ";" s0) ->
                 exists t y, token j cell = Some t /\ token_value t = Ok y).
  { intros j Hj.
    assert (nth_error (seq 0 (length res)) j = Some j) as Hseq.
    { rewrite (nth_error_nth' _ 0) by (rewrite length_seq; lia).
      rewrite seq_nth by lia. reflexivity. }
    destruct (Forall2_nth_error_l _ _ _ _ _ Hvals Hseq) as (r & _ & Hdec).
    destruct (Forall2_In_l _ _ _ _ Hdec Hcell) as (z & _ & t & Ht & Hz).
    destruct (decode_clamp_token_value t z Hz) as (y & Hy). eauto. }
  assert (Hpos : 0 < length (split ";" s0)).
  { pose proof (split_not_nil ";" s0). destruct (split ";" s0);
      [congruence|simpl; lia]. }
  destruct cell as [s|].
  2:{ destruct (Htok 0 Hpos) as (t & y & Ht & _). discriminate Ht. }
  exists s. split; [reflexivity|].
  assert (Hge : length (split ";" s0) <= length (split ";" s)).
  { destruct (Nat.le_gt_cases (length (split ";" s0))
                (length (split ";" s))) as [H|H]; [exact H|].
    destruct (Htok (length (split ";" s))) as (t & y & Ht & _); [exact H|].
    simpl in Ht.
    assert (nth_error (split ";" s) (length (split ";" s)) <> None) as Hs
      by congruence.
    apply nth_error_Some in Hs. lia. }
  assert (Hle : length (split ";" s) <= length (split ";" s0)).
  { rewrite <- Hw.
    apply (width_ge (map (option_map (split ";")) (Some s0 :: rest))
             (Some (split ";" s))).
    apply in_map_iff. exists (Some s). now split. }
  split; [lia|].
  intros t Ht. destruct (In_nth_error _ _ Ht) as (j & Hj).
  assert (j < length (split ";" s0)) as Hjlt.
  { assert (nth_error (split ";" s) j <> None) as Hs by congruence.
    apply nth_error_Some in Hs. lia. }
  destruct (Htok j Hjlt) as (t' & y & Ht' & Hy).
  simpl in Ht'. rewrite Hj in Ht'. injection Ht' as <-. eauto.
Qed.

Lemma three_rows_decodable :
  decodable [Some "related-1;request-0;offer-1";
             Some "related-0;request-2;offer-1";
             Some "related-0;request-1;offer-1"]
            "related-1;request-0;offer-1".
Proof.
  split.
  - repeat constructor; simpl; intuition discriminate.
  - intros cell [<-|[<-|[<-|[]]]]; eexists; (split; [reflexivity|]);
      (split; [reflexivity|]);
      intros t [<-|[<-|[<-|[]]]]; eexists; reflexivity.
Defined.

Lemma clean_needs_uniform_records_witness :
  exists s0,
    Some "related-1;request-0;offer-1" = Some s0
    /\ decodable [Some "related-1;request-0;offer-1";
                  Some "related-0;request-2;offer-1";
                  Some "related-0;request-1;offer-1"] s0.
Proof.
  exact (clean_needs_uniform_records Samples.three_rows
           Samples.three_rows_after Samples.three_rows_cleaned _ _
           eq_refl eq_refl).
Defined.

Lemma mapM_exists {A B} (f : A -> result B) l :
  (forall x, In x l -> exists y, f x = Ok y) -> exists r, mapM f l = Ok r.
Proof.
  induction l as [|x l IH]; intros H; simpl; [eauto|].
  destruct (H x (or_introl eq_refl)) as (y & ->).
  destruct IH as (r & ->); [intros z Hz; apply H; now right|].
  simpl. eauto.
Qed.

Lemma mapM_colname_tokens ts :
  mapM colname (map Some ts) = Ok (map token_name ts).
Proof.
  induction ts as [|t ts IH]; [reflexivity|].
  simpl. rewrite IH. unfold token_name at 2.
  pose proof (split_not_nil "-" t). now destruct (split "-" t).
Qed.

Lemma list_max_uniform l n :
  l <> [] -> (forall x, In x l -> x = n) -> list_max l = n.
Proof.
  induction l as [|x l IH]; intros Hne H; [congruence|].
  simpl. rewrite (H x (or_introl eq_refl)).
  destruct l as [|y l]; [simpl; lia|].
  rewrite IH; [lia|discriminate|]. intros z Hz. apply H. now right.
Qed.

Lemma decodable_width c0 rest s0 :
  decodable (c0 :: rest) s0 ->
  expanded_width (c0 :: rest) = length (split ";" s0).
Proof.
  intros [_ H]. unfold expanded_width, width.
  apply list_max_uniform; [discriminate|].
  intros x Hx. apply in_map_iff in Hx as (p & <- & Hp).
  apply in_map_iff in Hp as (cell & <- & Hcell).
  destruct (H cell Hcell) as (s & -> & Hlen & _). exact Hlen.
Qed.

Lemma decodable_column cells s0 j :
  decodable cells s0 -> j < length (split ";" s0) ->
  exists v, conv_col (map (token j) cells) = Ok v.
Proof.
  intros [_ H] Hj. unfold conv_col. apply mapM_exists.
  intros x Hx. apply in_map_iff in Hx as (c & <- & Hc).
  apply in_map_iff in Hc as (cell & <- & Hcell).
  destruct (H cell Hcell) as (s & -> & Hlen & Htok). simpl.
  destruct (nth_error (split ";" s) j) as [t|] eqn:Ht.
  - apply Htok. exact (nth_error_In _ _ Ht).
  - apply nth_error_None in Ht. lia.
Qed.

(** The loop of lines 55-60 goes through when the labels are distinct and
    every column can be converted. *)
Lemma for_column_complete idx pend : forall done res,
  NoDup (map fst pend) ->
  (forall n, In n (map fst pend) -> ~ In n (map fst done)) ->
  mapM conv_named pend = Ok res ->
  for_column (map fst pend) (mkDataFrame idx (done ++ objcols pend))
  = Ok (mkDataFrame idx (done ++ intcols res)).
Proof.
  induction pend as [|[n cells] pend IH]; intros done res Hnd Hdisj Hres.
  - simpl in Hres. injection Hres as <-. reflexivity.
  - simpl in Hres. unfold conv_named at 1 in Hres. simpl in Hres.
    destruct (conv_col cells) as [v|] eqn:Hv; simpl in Hres; [|discriminate].
    destruct (mapM conv_named pend) as [res'|] eqn:Hr; simpl in Hres;
      [|discriminate].
    injection Hres as <-.
    simpl map. simpl objcols. rewrite for_column_step.
    inversion Hnd as [|? ? Hn Hnd']; subst.
    assert (mem n (map fst done) = false) as ->
      by (apply mem_false; apply Hdisj; now left).
    assert (mem n (map fst (objcols pend)) = false) as ->
      by (rewrite fst_objcols; now apply mem_false).
    simpl. rewrite Hv. simpl.
    change (done ++ (n, IntCol v) :: objcols pend)
      with (done ++ [(n, IntCol v)] ++ objcols pend).
    assert (Hdisj' : forall m, In m (map fst pend) ->
                     ~ In m (map fst (done ++ [(n, IntCol v)]))).
    { intros m Hm Hin. rewrite map_app in Hin.
      apply in_app_or in Hin as [Hin|[<-|[]]].
      - apply (Hdisj m); [now right|exact Hin].
      - contradiction. }
    rewrite app_assoc, (IH _ res' Hnd' Hdisj' eq_refl).
    now rewrite <- app_assoc.
Qed.

(** Lines 41-70 on a table with rows whose [categories] column is
    decodable. *)
Lemma decode_categories_complete df s0 rest :
  getitem "categories" df = [ObjCol (Some s0 :: rest)] ->
  index df <> [] ->
  decodable (Some s0 :: rest) s0 ->
  exists res,
    map fst res = map token_name (split ";" s0)
    /\ decode_categories df = Ok (mkDataFrame (index df) (pruned res)).
Proof.
  intros Hsel Hidx Hdec.
  set (w := length (split ";" s0)).
  set (g := fun j => map (token j) (Some s0 :: rest)).
  set (names := map token_name (split ";" s0)).
  assert (Hlen : length names = length (seq 0 w)).
  { subst names w. now rewrite length_map, length_seq. }
  destruct (mapM_exists conv_named (combine names (map g (seq 0 w))))
    as (res0 & Hres0).
  { intros [n c] Hp. apply in_combine_r in Hp.
    apply in_map_iff in Hp as (j & <- & Hj). apply in_seq in Hj.
    destruct (decodable_column _ s0 j Hdec) as (v & Hv); [lia|].
    exists (n, v). unfold conv_named. simpl. fold (g j) in Hv.
    now rewrite Hv. }
  destruct (conv_named_combine names g (seq 0 w) res0 Hlen Hres0)
    as [Hfst _].
  assert (Hnd : NoDup (map fst (combine names (map g (seq 0 w))))).
  { apply mapM_conv_named in Hres0 as [<- _]. rewrite Hfst. apply Hdec. }
  assert (Hnd' : NoDup (map fst (intcols (map clip_named res0)))).
  { rewrite fst_intcols, fst_clip_named, Hfst. apply Hdec. }
  exists (map clip_named res0). split; [now rewrite fst_clip_named|].
  rewrite (decode_categories_eq df _ Hsel Hidx).
  rewrite (decodable_width _ _ _ Hdec). fold w.
  assert (mapM colname
            (map (fun j => match map (token j) (Some s0 :: rest) with
                           | x :: _ => x
                           | [] => None
                           end)
                 (seq 0 w))
          = Ok names) as ->.
  { simpl.
    change (fun j => token j (Some s0)) with (nth_error (split ";" s0)).
    subst w names. now rewrite map_nth_error_seq, mapM_colname_tokens. }
  cbn [bind]. cbv zeta. fold g.
  pose proof (for_column_complete (index df) _ [] res0 Hnd
                (fun n _ H => H) Hres0) as Hloop.
  simpl app in Hloop. rewrite Hloop.
  cbn [bind]. rewrite clip_intcols. cbn [bind].
  unfold labels. cbn [columns].
  rewrite (one_val_NoDup (index df) _ Hnd' _ (incl_refl _)).
  cbn [bind]. now rewrite (drop_filtered _ one_valued _ Hnd').
Qed.

Lemma in_labels_fields n df :
  In n (labels df) -> n <> "categories" -> In n (map fst (fields df)).
Proof.
  unfold labels, fields. intros H Hn.
  apply in_map_iff in H as (c & <- & Hc). apply in_map.
  apply filter_In. split; [exact Hc|]. unfold non_category.
  apply negb_true_iff. now apply String.eqb_neq.
Qed.

(** X7.  [clean_data] returns a table, and leaves the caller's table
    without its [categories] column, whenever the table has rows, a
    [message] and an [original] column, and one [categories] column of
    strings that is decodable. *)
Theorem clean_data_returns df s0 rest :
  getitem "categories" df = [ObjCol (Some s0 :: rest)] ->
  index df <> [] ->
  decodable (Some s0 :: rest) s0 ->
  In "message" (labels df) ->
  In "original" (labels df) ->
  exists out,
    clean_data df = (mkDataFrame (index df) (fields df), Ok out).
Proof.
  intros Hsel Hidx Hdec Hmsg Horig.
  destruct (decode_categories_complete df s0 rest Hsel Hidx Hdec)
    as (res & _ & Hcats).
  rewrite clean_data_unfold, Hcats.
  rewrite (drop_categories_present df _ _ Hsel).
  unfold concat_axis1. cbn [index columns].
  apply in_labels_fields in Hmsg; [|discriminate].
  apply in_labels_fields in Horig; [|discriminate].
  unfold drop_duplicates, empty. cbn [index columns].
  destruct (index df) as [|i0 idx]; [congruence|].
  destruct (fields df ++ pruned res) as [|c cs] eqn:E.
  { destruct (fields df); [destruct Hmsg|discriminate E]. }
  rewrite <- E.
  assert (forallb (fun n => mem n (labels (mkDataFrame (i0 :: idx)
                                             (fields df ++ pruned res))))
                  ["message"; "original"] = true) as ->.
  { unfold labels. cbn [columns]. rewrite map_app. simpl.
    rewrite andb_true_r. apply andb_true_iff.
    split; apply mem_In; apply in_or_app; now left. }
  eauto.
Qed.

Lemma clean_data_returns_witness :
  exists out,
    clean_data Samples.three_rows
    = (mkDataFrame (index Samples.three_rows) (fields Samples.three_rows),
       Ok out).
Proof.
  apply (clean_data_returns Samples.three_rows
           "related-1;request-0;offer-1"
           [Some "related-0;request-2;offer-1";
            Some "related-0;request-1;offer-1"]).
  - reflexivity.
  - discriminate.
  - exact three_rows_decodable.
  - simpl. auto.
  - simpl. auto.
Defined.

Lemma labels_pruned res :
  incl (map fst (pruned res)) (map fst res).
Proof.
  intros n Hn. apply in_map_iff in Hn as (c & <- & Hc).
  apply in_pruned in Hc as (m & v & -> & Hin & _).
  apply in_map_iff. exists (m, v). now split.
Qed.

(** X8.  [clean_data] is not all or nothing.  On a table with rows and a
    decodable [categories] column that has some other field but lacks a
    key field, [message] or [original], also among the category names,
    line 79 raises [KeyError] when the caller's table has already lost its
    [categories] column. *)
Theorem missing_key_field_raises_late df s0 rest k :
  getitem "categories" df = [ObjCol (Some s0 :: rest)] ->
  index df <> [] ->
  decodable (Some s0 :: rest) s0 ->
  fields df <> [] ->
  In k key_fields ->
  ~ In k (labels df) ->
  ~ In k (map token_name (split ";" s0)) ->
  clean_data df = (mkDataFrame (index df) (fields df), Raise KeyError).
Proof.
  intros Hsel Hidx Hdec Hf Hk Hnl Hnn.
  destruct (decode_categories_complete df s0 rest Hsel Hidx Hdec)
    as (res & Hnames & Hcats).
  rewrite clean_data_unfold, Hcats.
  rewrite (drop_categories_present df _ _ Hsel).
  unfold concat_axis1. cbn [index columns].
  unfold drop_duplicates, empty. cbn [index columns].
  destruct (index df) as [|i0 idx]; [congruence|].
  destruct (fields df ++ pruned res) as [|c cs] eqn:E.
  { destruct (fields df); [congruence|discriminate E]. }
  rewrite <- E.
  assert (forallb (fun n => mem n (labels (mkDataFrame (i0 :: idx)
                                             (fields df ++ pruned res))))
                  ["message"; "original"] = false) as ->; [|reflexivity].
  apply not_true_iff_false. intros Hall.
  rewrite forallb_forall in Hall. specialize (Hall k Hk).
  apply mem_In in Hall. unfold labels in Hall. cbn [columns] in Hall.
  rewrite map_app in Hall. apply in_app_or in Hall as [H|H].
  - apply Hnl. unfold fields in H. apply in_map_iff in H as (c0 & <- & Hc0).
    apply filter_In in Hc0 as [Hc0 _]. now apply in_map.
  - apply Hnn. rewrite <- Hnames. now apply labels_pruned.
Qed.

Lemma missing_key_field_raises_late_witness :
  clean_data Samples.no_message
  = (mkDataFrame (index Samples.no_message) (fields Samples.no_message),
     Raise KeyError).
Proof.
  apply (missing_key_field_raises_late Samples.no_message "related-1"
           [Some "related-0"] "message").
  - reflexivity.
  - discriminate.
  - split.
    + repeat constructor; simpl; intuition discriminate.
    + intros cell [<-|[<-|[]]]; eexists; (split; [reflexivity|]);
        (split; [reflexivity|]);
        intros t [<-|[]]; eexists; reflexivity.
  - discriminate.
  - now left.
  - intros [H|[H|[]]]; discriminate H.
  - intros [H|[]]; discriminate H.
Defined.

(* ================================================================= *)
(** ** [main] with three arguments *)

(** X9.  With three arguments, when the two sources are read and merged
    and the merged table is cleaned, [main] prints its three notices, asks
    for one write, of the cleaned table, to the relation
    [DisasterResponse] of the database [sqlite:///<third argument>], and
    announces success only if that write did not raise.  In order: notice,
    the two reads, notice, notice, write, announcement. *)
Theorem main_runs_pipeline
    (read_csv : string -> result DataFrame)
    (to_sql : string -> string -> DataFrame -> result unit)
    prog mp cp dp m c merged st cleaned t :
  read_csv mp = Ok m ->
  read_csv cp = Ok c ->
  merge m c = Ok merged ->
  clean_data merged = (st, Ok cleaned) ->
  main read_csv to_sql [prog; mp; cp; dp] t
  = (t ++ [Print (loading_text mp cp); ReadCsv mp; ReadCsv cp;
           Print "Cleaning data..."; Print (saving_text dp);
           ToSql (db_url dp) "DisasterResponse" cleaned]
       ++ match to_sql (db_url dp) "DisasterResponse" cleaned with
          | Ok _ => [Print "Cleaned data saved to database!"]
          | Raise _ => []
          end,
     to_sql (db_url dp) "DisasterResponse" cleaned).
Proof.
  intros Hm Hc Hmerge Hclean.
  unfold main, load_data, pd_read_csv, save_data, print, mbind, emit, lift,
    ret, loading_text, saving_text, db_url. simpl.
  rewrite Hm, Hc, Hmerge, Hclean. simpl.
  match goal with
  | |- context [to_sql ?u ?r cleaned] =>
      destruct (to_sql u r cleaned) as [[]|e]
  end; repeat rewrite <- app_assoc; reflexivity.
Qed.

Lemma main_runs_pipeline_witness :
  main Samples.matching_files Samples.any_engine
       ["process_data.py"; "messages.csv"; "categories.csv"; "Disaster.db"]
       []
  = ([] ++ [Print (loading_text "messages.csv" "categories.csv");
            ReadCsv "messages.csv"; ReadCsv "categories.csv";
            Print "Cleaning data..."; Print (saving_text "Disaster.db");
            ToSql (db_url "Disaster.db") "DisasterResponse"
                  Samples.joined_cleaned]
        ++ match Samples.any_engine (db_url "Disaster.db")
                   "DisasterResponse" Samples.joined_cleaned with
           | Ok _ => [Print "Cleaned data saved to database!"]
           | Raise _ => []
           end,
      Samples.any_engine (db_url "Disaster.db") "DisasterResponse"
        Samples.joined_cleaned).
Proof.
  exact (main_runs_pipeline Samples.matching_files Samples.any_engine
           "process_data.py" "messages.csv" "categories.csv" "Disaster.db"
           Samples.messages_source Samples.categories_matching
           Samples.joined Samples.joined_after Samples.joined_cleaned []
           eq_refl eq_refl eq_refl eq_refl).
Defined.

(** X10.  Whatever the arguments and whatever fails, [main] asks for a
    write only once the table has been read, merged and cleaned: every
    write of a run is a write of the table that [clean_data] returned for
    the merged sources, to the relation [DisasterResponse] of the database
    named by the third argument. *)
Theorem main_writes_only_cleaned
    (read_csv : string -> result DataFrame)
    (to_sql : string -> string -> DataFrame -> result unit) argv t t' r :
  main read_csv to_sql argv t = (t', r) ->
  exists new,
    t' = t ++ new
    /\ forall url table df,
         In (ToSql url table df) new ->
         table = "DisasterResponse"
         /\ exists prog mp cp dp m c merged st,
              argv = [prog; mp; cp; dp]
              /\ read_csv mp = Ok m
              /\ read_csv cp = Ok c
              /\ merge m c = Ok merged
              /\ clean_data merged = (st, Ok df)
              /\ url = db_url dp.
Proof.
  unfold main. destruct (length argv =? 4)%nat eqn:Hlen.
  - destruct argv as [|prog [|mp [|cp [|dp [|x argv]]]]]; try discriminate.
    unfold load_data, pd_read_csv, save_data, print, mbind, emit, lift, ret.
    cbn [tl].
    destruct (read_csv mp) as [m|e1] eqn:Hm.
    2:{ intros H. injection H as <- <-. eexists. split;
          [repeat rewrite <- app_assoc; reflexivity|].
        intros url table df Hin. simpl in Hin.
        repeat destruct Hin as [Hin|Hin]; try discriminate Hin;
          contradiction. }
    destruct (read_csv cp) as [c|e2] eqn:Hc.
    2:{ intros H. injection H as <- <-. eexists. split;
          [repeat rewrite <- app_assoc; reflexivity|].
        intros url table df Hin. simpl in Hin.
        repeat destruct Hin as [Hin|Hin]; try discriminate Hin;
          contradiction. }
    destruct (merge m c) as [merged|e3] eqn:Hmerge.
    2:{ intros H. injection H as <- <-. eexists. split;
          [repeat rewrite <- app_assoc; reflexivity|].
        intros url table df Hin. simpl in Hin.
        repeat destruct Hin as [Hin|Hin]; try discriminate Hin;
          contradiction. }
    destruct (clean_data merged) as [st [cleaned|e4]] eqn:Hclean.
    2:{ cbn [snd]. intros H. injection H as <- <-. eexists. split;
          [repeat rewrite <- app_assoc; reflexivity|].
        intros url table df Hin. simpl in Hin.
        repeat destruct Hin as [Hin|Hin]; try discriminate Hin;
          contradiction. }
    cbn [snd].
    destruct (to_sql _ _ cleaned) as [[]|e5]; intros H;
      injection H as <- <-; (eexists; split;
        [repeat rewrite <- app_assoc; reflexivity|]);
      intros url table df Hin; simpl in Hin;
      repeat destruct Hin as [Hin|Hin]; try discriminate Hin;
      try contradiction;
      injection Hin as <- <- <-; (split; [reflexivity|]);
      exists prog, mp, cp, dp, m, c, merged, st; repeat split; assumption.
  - unfold print, emit. intros H. injection H as <- <-.
    exists [Print usage]. split; [reflexivity|].
    intros url table df [Hin|[]]. discriminate Hin.
Qed.

Lemma main_writes_only_cleaned_witness :
  exists new,
    [Print (loading_text "messages.csv" "categories.csv");
     ReadCsv "messages.csv"; ReadCsv "categories.csv";
     Print "Cleaning data..."; Print (saving_text "Disaster.db");
     ToSql (db_url "Disaster.db") "DisasterResponse" Samples.joined_cleaned;
     Print "Cleaned data saved to database!"] = [] ++ new
    /\ forall url table df,
         In (ToSql url table df) new ->
         table = "DisasterResponse"
         /\ exists prog mp cp dp m c merged st,
              ["process_data.py"; "messages.csv"; "categories.csv";
               "Disaster.db"] = [prog; mp; cp; dp]
              /\ Samples.matching_files mp = Ok m
              /\ Samples.matching_files cp = Ok c
              /\ merge m c = Ok merged
              /\ clean_data merged = (st, Ok df)
              /\ url = db_url dp.
Proof.
  exact (main_writes_only_cleaned Samples.matching_files Samples.any_engine
           ["process_data.py"; "messages.csv"; "categories.csv";
            "Disaster.db"] [] _ (Ok tt) eq_refl).
Defined.

Lemma no_rows_rejected df :
  index df = [] ->
  exists e, (e = AttributeError \/ e = IndexError)
            /\ clean_data df = (df, Raise e).
Proof.
  intros Hidx. rewrite clean_data_unfold. unfold decode_categories.
  destruct (sel <- getattr "categories" df;; str sel) as [cells|e] eqn:E.
  - exists IndexError. split; [now right|].
    cbn [bind]. unfold iloc0.
    assert (e_index (str_split_expand ";" (index df) cells) = index df)
      as -> by reflexivity.
    now rewrite Hidx.
  - exists AttributeError. split; [now left|].
    unfold getattr in E.
    destruct (getitem "categories" df) as [|[l|l] [|s sel]];
      simpl in E; try discriminate E; now injection E as <-.
Qed.

Lemma merge_disjoint_no_rows left right df :
  (forall k,
      In k (join_keys (common_labels left right) left) ->
      ~ In k (join_keys (common_labels left right) right)) ->
  merge left right = Ok df -> index df = [].
Proof.
  intros Hdisj. unfold merge.
  destruct (common_labels left right); [discriminate|].
  destruct (negb (forallb _ _)); [discriminate|].
  destruct (negb (key_dtypes_agree _ _ _)); [discriminate|].
  rewrite (join_pairs_disjoint _ _ Hdisj).
  intros H. now injection H as <-.
Qed.

(** X11.  When no row of one source has the identifier of a row of the
    other and the merge is defined, the run stops in [clean_data], on the
    table without rows: [main] has printed the first two notices and read
    both sources, raises [AttributeError] or [IndexError], and asks for no
    write. *)
Theorem main_stops_on_disjoint_sources
    (read_csv : string -> result DataFrame)
    (to_sql : string -> string -> DataFrame -> result unit)
    prog mp cp dp m c merged t :
  read_csv mp = Ok m ->
  read_csv cp = Ok c ->
  (forall k,
      In k (join_keys (common_labels m c) m) ->
      ~ In k (join_keys (common_labels m c) c)) ->
  merge m c = Ok merged ->
  exists e,
    (e = AttributeError \/ e = IndexError)
    /\ main read_csv to_sql [prog; mp; cp; dp] t
       = (t ++ [Print (loading_text mp cp); ReadCsv mp; ReadCsv cp;
                Print "Cleaning data..."],
          Raise e).
Proof.
  intros Hm Hc Hdisj Hmerge.
  pose proof (merge_disjoint_no_rows m c merged Hdisj Hmerge) as Hidx.
  destruct (no_rows_rejected merged Hidx) as (e & He & Hclean).
  exists e. split; [exact He|].
  unfold main, load_data, pd_read_csv, save_data, print, mbind, emit, lift,
    ret, loading_text. simpl.
  rewrite Hm, Hc, Hmerge, Hclean. simpl.
  repeat rewrite <- app_assoc. reflexivity.
Qed.

Lemma main_stops_on_disjoint_sources_witness :
  exists e,
    (e = AttributeError \/ e = IndexError)
    /\ main Samples.files Samples.any_engine
            ["process_data.py"; "messages.csv"; "categories.csv";
             "Disaster.db"] []
       = ([] ++ [Print (loading_text "messages.csv" "categories.csv");
                 ReadCsv "messages.csv"; ReadCsv "categories.csv";
                 Print "Cleaning data..."],
          Raise e).
Proof.
  apply (main_stops_on_disjoint_sources Samples.files Samples.any_engine
           "process_data.py" "messages.csv" "categories.csv" "Disaster.db"
           Samples.messages_source Samples.categories_source
           Samples.no_rows [] eq_refl eq_refl).
  - intros k Hl Hr. vm_compute in Hl, Hr.
    destruct Hl as [<-|[<-|[]]]; destruct Hr as [E|[E|[]]]; discriminate E.
  - reflexivity.
Defined.

(* ================================================================= *)
(** ** The table that [load_data] returns *)

Lemma take_length positions s :
  length (values (take positions s)) = length positions.
Proof. destruct s; simpl; now rewrite !length_map. Qed.

Lemma RangeIndex_length n : length (RangeIndex n) = n.
Proof. unfold RangeIndex. now rewrite length_map, length_seq. Qed.

Lemma RangeIndex_NoDup n : NoDup (RangeIndex n).
Proof.
  unfold RangeIndex. generalize (seq_NoDup n 0).
  induction (seq 0 n) as [|a l IH]; intros H; simpl; [constructor|].
  inversion H as [|? ? Ha Hl]; subst. constructor; [|now apply IH].
  intros Hin. apply in_map_iff in Hin as (b & E & Hb).
  apply Nat2Z.inj in E. now subst b.
Qed.

(** The pairs joined are the pairs of rows with the same key. *)
Lemma join_pairs_spec lkeys rkeys i j :
  In (i, j) (join_pairs lkeys rkeys)
  <-> i < length lkeys /\ j < length rkeys
      /\ nth i lkeys [] = nth j rkeys [].
Proof.
  unfold join_pairs. rewrite in_flat_map. split.
  - intros (i' & Hi & Hin). apply in_map_iff in Hin as (j' & E & Hj).
    injection E as -> ->. apply filter_In in Hj as [Hj Hk].
    apply in_seq in Hi, Hj.
    destruct (key_eq_dec (nth i lkeys []) (nth j rkeys [])); [|discriminate].
    repeat split; [lia|lia|assumption].
  - intros (Hi & Hj & E). exists i. split; [apply in_seq; lia|].
    apply in_map. apply filter_In. split; [apply in_seq; lia|].
    now destruct (key_eq_dec (nth i lkeys []) (nth j rkeys [])).
Qed.

(** Every pair of matching rows is joined once. *)
Lemma join_pairs_NoDup lkeys rkeys : NoDup (join_pairs lkeys rkeys).
Proof.
  unfold join_pairs. generalize (seq_NoDup (length lkeys) 0).
  induction (seq 0 (length lkeys)) as [|i l IH]; intros Hnd; simpl;
    [constructor|].
  inversion Hnd as [|? ? Hi Hl]; subst. apply NoDup_app.
  - apply NoDup_map_NoDup_ForallPairs.
    + intros x y _ _ E. now injection E.
    + apply NoDup_filter, seq_NoDup.
  - now apply IH.
  - intros [i' j] Hin Hin'. apply in_map_iff in Hin as (j' & E & _).
    injection E as <- _. apply in_flat_map in Hin' as (k & Hk & Hin').
    apply in_map_iff in Hin' as (j'' & E & _). injection E as -> _.
    contradiction.
Qed.

(** X12.  The table that [load_data] returns is an inner join: its rows
    are, in all columns, the rows of the two sources paired up, once each,
    exactly when they agree on the columns the sources have in common; it is
    rectangular, with the row labels 0, 1, ... without repetition, the
    columns of the messages first and then those of the categories that
    are not common.  The two sources are read, messages first, and nothing
    is printed. *)
Theorem load_data_joins
    (read_csv : string -> result DataFrame) mp cp m c t t' df :
  read_csv mp = Ok m ->
  read_csv cp = Ok c ->
  load_data read_csv mp cp t = (t', Ok df) ->
  t' = t ++ [ReadCsv mp; ReadCsv cp]
  /\ exists pairs,
       (forall i j,
           In (i, j) pairs
           <-> i < length (index m) /\ j < length (index c)
               /\ nth i (join_keys (common_labels m c) m) []
                  = nth j (join_keys (common_labels m c) c) [])
       /\ NoDup pairs
       /\ index df = RangeIndex (length pairs)
       /\ columns df
          = map (fun col => (fst col, take (map fst pairs) (snd col)))
                (columns m)
            ++ map (fun col => (fst col, take (map snd pairs) (snd col)))
                (filter (fun col => negb (mem (fst col) (common_labels m c)))
                        (columns c))
       /\ well_formed df
       /\ NoDup (index df).
Proof.
  intros Hm Hc. unfold load_data, pd_read_csv, mbind, emit, lift, ret.
  rewrite Hm, Hc, <- app_assoc. simpl.
  destruct (merge m c) as [d|] eqn:Hmerge; [|discriminate].
  intros H. injection H as <- <-. split; [reflexivity|].
  unfold merge in Hmerge.
  destruct (common_labels m c) as [|n on_] eqn:Hon; [discriminate|].
  destruct (negb (forallb _ _)); [discriminate|].
  destruct (negb (key_dtypes_agree _ _ _)); [discriminate|].
  injection Hmerge as <-.
  exists (join_pairs (join_keys (n :: on_) m) (join_keys (n :: on_) c)).
  cbn [index columns].
  split; [|split; [|split; [reflexivity|split; [reflexivity|split]]]].
  - intros i j. rewrite join_pairs_spec. unfold join_keys at 1 2.
    now rewrite !rows_length.
  - apply join_pairs_NoDup.
  - unfold well_formed. cbn [index columns].
    rewrite RangeIndex_length. apply Forall_app.
    split; apply Forall_forall; intros col Hcol;
      apply in_map_iff in Hcol as (c0 & <- & _); simpl;
      now rewrite take_length, length_map.
  - apply RangeIndex_NoDup.
Qed.

Lemma load_data_joins_witness :
  [ReadCsv "messages.csv"; ReadCsv "categories.csv"]
  = [] ++ [ReadCsv "messages.csv"; ReadCsv "categories.csv"]
  /\ exists pairs,
       (forall i j,
           In (i, j) pairs
           <-> i < length (index Samples.messages_source)
               /\ j < length (index Samples.categories_matching)
               /\ nth i (join_keys
                           (common_labels Samples.messages_source
                              Samples.categories_matching)
                           Samples.messages_source) []
                  = nth j (join_keys
                             (common_labels Samples.messages_source
                                Samples.categories_matching)
                             Samples.categories_matching) [])
       /\ NoDup pairs
       /\ index Samples.joined = RangeIndex (length pairs)
       /\ columns Samples.joined
          = map (fun col => (fst col, take (map fst pairs) (snd col)))
                (columns Samples.messages_source)
            ++ map (fun col => (fst col, take (map snd pairs) (snd col)))
                (filter (fun col =>
                           negb (mem (fst col)
                                   (common_labels Samples.messages_source
                                      Samples.categories_matching)))
                        (columns Samples.categories_matching))
       /\ well_formed Samples.joined
       /\ NoDup (index Samples.joined).
Proof.
  exact (load_data_joins Samples.matching_files "messages.csv"
           "categories.csv" Samples.messages_source
           Samples.categories_matching [] _ Samples.joined
           eq_refl eq_refl eq_refl).
Defined.

(* ================================================================= *)
(** ** Records with distinct keys, and tokens with more hyphens *)

Lemma select_all_true {A} mask (l : list A) :
  length mask = length l ->
  (forall j, j < length l -> nth j mask false = true) ->
  select mask l = l.
Proof.
  revert l. induction mask as [|b mask IH]; intros [|x l] Hlen H;
    try discriminate Hlen; [reflexivity|].
  injection Hlen as Hlen. simpl.
  assert (b = true) as -> by (apply (H 0); simpl; lia).
  f_equal. apply IH; [exact Hlen|].
  intros j Hj. apply (H (S j)). simpl. lia.
Qed.

Lemma select_series_all_true mask s :
  length mask = length (values s) ->
  (forall j, j < length mask -> nth j mask false = true) ->
  select_series mask s = s.
Proof.
  intros Hlen H. destruct s as [l|l]; simpl in *; rewrite length_map in Hlen;
    f_equal; apply select_all_true; auto; intros j Hj; apply H; lia.
Qed.

(** X13.  When the (message, original) keys of the records are pairwise
    different, no record is lost: the table returned has the row labels of
    the input, and its fields other than [categories] are those of the
    input, cell for cell (on a well-formed table with a [message] column
    no surviving category of which is labelled as a key field). *)
Theorem distinct_keys_keep_every_record df st out :
  well_formed df ->
  In "message" (labels df) ->
  (forall n, In n (category_schema df out) -> ~ In n key_fields) ->
  NoDup (row_keys key_fields df) ->
  clean_data df = (st, Ok out) ->
  index out = index df
  /\ firstn (length (fields df)) (columns out) = fields df.
Proof.
  intros Hwf Hmsg Hfree Hkeys Hrun.
  destruct (clean_data_dedup df st out Hmsg Hfree Hrun)
    as (cats & _ & Hidx & Hcols).
  assert (Hlen : length (row_keys key_fields df) = length (index df)).
  { unfold row_keys. apply rows_length. }
  assert (Hall : forall j, j < length (kept df) ->
                 nth j (kept df) false = true).
  { intros j Hj. rewrite kept_length in Hj. unfold kept, duplicated.
    apply keep_first_nth; [lia|]. intros i Hi E.
    assert (i = j); [|lia].
    apply (proj1 (NoDup_nth _ []) Hkeys); [lia|lia|exact E]. }
  split.
  - rewrite Hidx. apply select_all_true; [apply kept_length|].
    intros j Hj. apply Hall. now rewrite kept_length.
  - rewrite Hcols, firstn_on_columns. unfold on_columns.
    rewrite <- (map_id (fields df)) at 2. apply map_ext_in.
    intros [n s] Hc. simpl. f_equal.
    apply select_series_all_true; [|exact Hall].
    rewrite kept_length. symmetry.
    unfold well_formed in Hwf. rewrite Forall_forall in Hwf.
    apply (Hwf (n, s)). unfold fields in Hc.
    now apply filter_In in Hc as [Hc _].
Qed.

Lemma joined_well_formed : well_formed Samples.joined.
Proof. repeat constructor. Defined.

Lemma joined_no_key_category n :
  In n (category_schema Samples.joined Samples.joined_cleaned) ->
  ~ In n key_fields.
Proof.
  intros [<-|[<-|[]]] [E|[E|[]]]; discriminate E.
Defined.

Lemma joined_keys_distinct : NoDup (row_keys key_fields Samples.joined).
Proof.
  repeat constructor; simpl; intuition discriminate.
Defined.

Lemma distinct_keys_keep_every_record_witness :
  index Samples.joined_cleaned = index Samples.joined
  /\ firstn (length (fields Samples.joined)) (columns Samples.joined_cleaned)
     = fields Samples.joined.
Proof.
  apply (distinct_keys_keep_every_record Samples.joined Samples.joined_after
           Samples.joined_cleaned).
  - exact joined_well_formed.
  - simpl. auto.
  - exact joined_no_key_category.
  - exact joined_keys_distinct.
  - reflexivity.
Defined.

Lemma split_whole sep s : mentions sep s = false -> split sep s = [s].
Proof.
  induction s as [|c s IH]; simpl; intros H; [reflexivity|].
  apply orb_false_iff in H as [Hc Hs]. now rewrite Hc, (IH Hs).
Qed.

(** X14.  Only what stands between the first and the second hyphen of a
    token is read as its value, and only what stands before the first as
    its name: whatever follows a second hyphen is ignored. *)
Theorem text_after_second_hyphen_is_ignored name field rest :
  mentions "-" name = false ->
  mentions "-" field = false ->
  token_value (name ++ String "-" (field ++ String "-" rest))
  = token_value (name ++ String "-" field)
  /\ token_name (name ++ String "-" (field ++ String "-" rest)) = name
  /\ token_name (name ++ String "-" field) = name.
Proof.
  intros Hn Hf. unfold token_value, token_name, str_split_get.
  rewrite !(split_append _ _ _ Hn), (split_append _ _ _ Hf),
    (split_whole _ _ Hf).
  repeat split.
Qed.

Lemma text_after_second_hyphen_is_ignored_witness :
  token_value "aid-1-x" = token_value "aid-1"
  /\ token_name "aid-1-x" = "aid"
  /\ token_name "aid-1" = "aid".
Proof.
  exact (text_after_second_hyphen_is_ignored "aid" "1" "x"
           eq_refl eq_refl).
Defined.

(** X15.  The category columns of a table returned bear pairwise different
    labels: a label can only repeat in the result when a category is
    called like a field of the input. *)
Theorem category_labels_are_distinct df st out :
  clean_data df = (st, Ok out) ->
  NoDup (category_schema df out).
Proof.
  intros Hrun.
  destruct (clean_data_columns df st out Hrun)
    as (cells & res & F & _ & _ & Hnd & _ & _ & _ & _ & Hcat).
  unfold category_schema. rewrite Hcat, fst_on_columns.
  unfold pruned. rewrite fst_filter_NoDup by now rewrite fst_intcols.
  apply NoDup_filter. now rewrite fst_intcols.
Qed.

Lemma category_labels_are_distinct_witness :
  NoDup (category_schema Samples.three_rows Samples.three_rows_cleaned).
Proof.
  exact (category_labels_are_distinct Samples.three_rows
           Samples.three_rows_after Samples.three_rows_cleaned eq_refl).
Defined.

(* ================================================================= *)
(** ** Whole records, and what the category columns hold *)

Lemma getitem_length df n s sel :
  well_formed df -> getitem n df = s :: sel ->
  length (values s) = length (index df).
Proof.
  intros Hwf H. unfold getitem in H.
  assert (Hin : In s (map snd (filter (fun c => String.eqb (fst c) n)
                                      (columns df))))
    by (rewrite H; now left).
  apply in_map_iff in Hin as (c & <- & Hc). apply filter_In in Hc as [Hc _].
  unfold well_formed in Hwf. rewrite Forall_forall in Hwf. now apply Hwf.
Qed.

Lemma select_every {A} (l : list A) : select (map (fun _ => true) l) l = l.
Proof. induction l as [|x l IH]; simpl; [reflexivity|now rewrite IH]. Qed.

(** X16.  Deduplication keeps whole records.  On a well-formed table with
    a [message] column, when no surviving category is labelled [message]
    or [original]: the records returned are the records of the input whose
    (message, original) key stands in no earlier record; each comes with
    its row label, its fields and the clamped values of its own tokens,
    under the names of the first record; and every key of the input is the
    key of exactly one record returned. *)
Theorem duplicates_keep_first_record df st out s0 rest :
  well_formed df ->
  In "message" (labels df) ->
  getitem "categories" df = [ObjCol (Some s0 :: rest)] ->
  (forall n, In n (category_schema df out) -> ~ In n key_fields) ->
  clean_data df = (st, Ok out) ->
  exists (keep : list bool) (decoded : list (string * list Z)),
    length keep = length (index df)
    /\ (forall j, j < length (index df) ->
          (nth j keep false = true
           <-> forall i, i < j ->
                 nth i (row_keys key_fields df) []
                 <> nth j (row_keys key_fields df) []))
    /\ map fst decoded = map token_name (split ";" s0)
    /\ Forall2 (fun j r => decoded_from (Some s0 :: rest) j (snd r))
               (seq 0 (length decoded)) decoded
    /\ index out = select keep (index df)
    /\ columns out
       = on_columns (select_series keep) (fields df ++ pruned decoded)
    /\ row_keys key_fields out = select keep (row_keys key_fields df)
    /\ NoDup (row_keys key_fields out)
    /\ (forall k, In k (row_keys key_fields df) ->
                  In k (row_keys key_fields out)).
Proof.
  intros Hwf Hmsg Hsel Hfree Hrun.
  destruct (clean_data_rows df st out Hmsg Hfree Hrun)
    as (cells & res & Hsel' & Hnames & Hvals & Hcats & Hidx & Hcols).
  rewrite Hsel in Hsel'. injection Hsel' as <-.
  destruct Hnames as (s0' & E & Hnames). injection E as <-.
  pose proof (row_keys_cleaned df out (pruned res) Hwf Hcats Hidx Hcols)
    as Hkeys.
  exists (kept df), res.
  split; [apply kept_length|].
  split; [intros j Hj; apply keep_first_nth; unfold row_keys;
          now rewrite rows_length|].
  split; [exact Hnames|]. split; [exact Hvals|]. split; [exact Hidx|].
  split; [exact Hcols|]. split; [exact Hkeys|]. split.
  - rewrite Hkeys. apply keep_first_NoDup.
  - intros k Hk. rewrite Hkeys.
    destruct (keep_first_complete (row_keys key_fields df) [] k Hk)
      as [[]|H]. exact H.
Qed.

Lemma duplicates_keep_first_record_witness :
  exists (keep : list bool) (decoded : list (string * list Z)),
    length keep = length (index Samples.three_rows)
    /\ (forall j, j < length (index Samples.three_rows) ->
          (nth j keep false = true
           <-> forall i, i < j ->
                 nth i (row_keys key_fields Samples.three_rows) []
                 <> nth j (row_keys key_fields Samples.three_rows) []))
    /\ map fst decoded
       = map token_name (split ";" "related-1;request-0;offer-1")
    /\ Forall2 (fun j r =>
                  decoded_from [Some "related-1;request-0;offer-1";
                                Some "related-0;request-2;offer-1";
                                Some "related-0;request-1;offer-1"]
                               j (snd r))
               (seq 0 (length decoded)) decoded
    /\ index Samples.three_rows_cleaned
       = select keep (index Samples.three_rows)
    /\ columns Samples.three_rows_cleaned
       = on_columns (select_series keep)
           (fields Samples.three_rows ++ pruned decoded)
    /\ row_keys key_fields Samples.three_rows_cleaned
       = select keep (row_keys key_fields Samples.three_rows)
    /\ NoDup (row_keys key_fields Samples.three_rows_cleaned)
    /\ (forall k, In k (row_keys key_fields Samples.three_rows) ->
                  In k (row_keys key_fields Samples.three_rows_cleaned)).
Proof.
  apply (duplicates_keep_first_record Samples.three_rows
           Samples.three_rows_after Samples.three_rows_cleaned).
  - exact three_rows_well_formed.
  - simpl. auto.
  - reflexivity.
  - exact three_rows_no_key_category.
  - reflexivity.
Defined.

(** X17.  Missing originals compare equal in the key.  On a well-formed
    table, when no surviving category is labelled [message] or
    [original]: two records with the same message and no original have
    the same key, the later of the two is not among the records returned,
    and a record with their key is. *)
Theorem later_null_original_is_dropped df st out msgs origs i j m :
  well_formed df ->
  getitem "message" df = [ObjCol msgs] ->
  getitem "original" df = [ObjCol origs] ->
  (forall n, In n (category_schema df out) -> ~ In n key_fields) ->
  clean_data df = (st, Ok out) ->
  i < j ->
  nth_error msgs i = Some m -> nth_error msgs j = Some m ->
  nth_error origs i = Some None -> nth_error origs j = Some None ->
  nth i (row_keys key_fields df) [] = nth j (row_keys key_fields df) []
  /\ exists (keep : list bool) cats,
       length keep = length (index df)
       /\ index out = select keep (index df)
       /\ columns out = on_columns (select_series keep) (fields df ++ cats)
       /\ nth j keep false = false
       /\ In (nth j (row_keys key_fields df) []) (row_keys key_fields out).
Proof.
  intros Hwf Hm Ho Hfree Hrun Hij Hmi Hmj Hoi Hoj.
  assert (Hj : j < length (index df)).
  { rewrite <- (getitem_length df _ _ _ Hwf Hm). simpl. rewrite length_map.
    apply nth_error_Some. congruence. }
  pose proof (getitem_In _ _ _ _ Hm) as Hmsg.
  destruct (clean_data_dedup df st out Hmsg Hfree Hrun)
    as (cats & Hcats & Hidx & Hcols).
  assert (Hkey : nth i (row_keys key_fields df) []
                 = nth j (row_keys key_fields df) []).
  { apply (null_original_same_key df msgs origs i j m); auto. lia. }
  assert (Hlen : length (row_keys key_fields df) = length (index df)).
  { unfold row_keys. apply rows_length. }
  split; [exact Hkey|].
  exists (kept df), cats.
  split; [apply kept_length|]. split; [exact Hidx|]. split; [exact Hcols|].
  split.
  - destruct (nth j (kept df) false) eqn:E; [|reflexivity].
    exfalso. unfold kept, duplicated in E.
    rewrite keep_first_nth in E by lia.
    exact (E i Hij Hkey).
  - rewrite (row_keys_cleaned df out cats Hwf Hcats Hidx Hcols).
    destruct (keep_first_complete (row_keys key_fields df) []
                (nth j (row_keys key_fields df) [])) as [[]|H];
      [|exact H].
    apply nth_In. lia.
Qed.

Lemma later_null_original_is_dropped_witness :
  nth 0 (row_keys key_fields Samples.null_originals) []
  = nth 2 (row_keys key_fields Samples.null_originals) []
  /\ exists (keep : list bool) cats,
       length keep = length (index Samples.null_originals)
       /\ index Samples.null_originals_cleaned
          = select keep (index Samples.null_originals)
       /\ columns Samples.null_originals_cleaned
          = on_columns (select_series keep)
              (fields Samples.null_originals ++ cats)
       /\ nth 2 keep false = false
       /\ In (nth 2 (row_keys key_fields Samples.null_originals) [])
             (row_keys key_fields Samples.null_originals_cleaned).
Proof.
  apply (later_null_original_is_dropped Samples.null_originals
           Samples.null_originals_after Samples.null_originals_cleaned
           [Some "Water"; Some "Help me"; Some "Water"]
           [None; Some "Aidez-moi"; None] 0 2 (Some "Water")).
  - exact null_originals_well_formed.
  - reflexivity.
  - reflexivity.
  - exact null_originals_no_key_category.
  - reflexivity.
  - lia.
  - reflexivity.
  - reflexivity.
  - reflexivity.
  - reflexivity.
Defined.

(** X18.  Whatever the labels, the table returned is a selection of rows
    of the fields of the input set beside the decoded columns: the column
    of the category at place [j] of the first record holds, record by
    record, the clamped value of the token at place [j] of that record,
    and the columns with a single value are left out.  So every category
    column is an integer column of zeros and ones. *)
Theorem category_columns_hold_clamped_tokens df st out s0 rest :
  getitem "categories" df = [ObjCol (Some s0 :: rest)] ->
  clean_data df = (st, Ok out) ->
  exists (mask : list bool) (decoded : list (string * list Z)),
    length mask = length (index df)
    /\ map fst decoded = map token_name (split ";" s0)
    /\ Forall2 (fun j r => decoded_from (Some s0 :: rest) j (snd r))
               (seq 0 (length decoded)) decoded
    /\ index out = select mask (index df)
    /\ columns out
       = on_columns (select_series mask) (fields df ++ pruned decoded)
    /\ Forall (fun c => exists l,
                 snd c = IntCol l
                 /\ forall z, In z l -> z = 0%Z \/ z = 1%Z)
              (category_columns df out).
Proof.
  intros Hsel Hrun.
  destruct (clean_data_Ok df st out Hrun) as (cats & Hdec & _ & Hdd).
  destruct (decode_categories_Ok df cats Hdec)
    as (cells & res & Hsel' & Hidx & _ & Hnames & Hvals & ->).
  rewrite Hsel in Hsel'. injection Hsel' as <-.
  destruct Hnames as (s0' & E & Hnames). injection E as <-.
  cbn [columns] in Hdd. fold (pruned res) in Hdd.
  assert (Hout : exists mask,
             length mask = length (index df)
             /\ index out = select mask (index df)
             /\ columns out
                = on_columns (select_series mask) (fields df ++ pruned res)).
  { unfold drop_duplicates in Hdd.
    destruct (empty _) eqn:He.
    - injection Hdd as <-. exists (map (fun _ => true) (index df)).
      cbn [index columns]. split; [apply length_map|].
      split; [now rewrite select_every|].
      unfold empty in He. cbn [index columns] in He.
      destruct (index df); [congruence|].
      destruct (fields df ++ pruned res); [reflexivity|discriminate He].
    - destruct (forallb _ _); [|discriminate Hdd]. injection Hdd as <-.
      eexists. split; [|split; reflexivity].
      unfold duplicated, row_keys.
      now rewrite length_map, duplicated_keys_length, rows_length. }
  destruct Hout as (mask & Hlen & Hi & Hcols).
  exists mask, res. repeat split; try assumption.
  rewrite (category_columns_on _ df (pruned res) out Hcols).
  apply Forall_forall. intros c Hc.
  apply in_on_columns in Hc as (c0 & Hc0 & ->).
  apply in_pruned in Hc0 as (n & v & -> & Hin & _).
  exists (select mask v). split; [reflexivity|]. intros z Hz.
  apply select_incl in Hz.
  destruct (In_nth_error _ _ Hin) as (j & Hj).
  destruct (Forall2_nth_error_r _ _ _ _ _ Hvals Hj) as (j' & _ & Hd).
  destruct (Forall2_In_r _ _ _ _ Hd Hz) as (cell & _ & t & _ & Ht).
  exact (decode_clamp_binary t z Ht).
Qed.

Lemma category_columns_hold_clamped_tokens_witness :
  exists (mask : list bool) (decoded : list (string * list Z)),
    length mask = length (index Samples.three_rows)
    /\ map fst decoded
       = map token_name (split ";" "related-1;request-0;offer-1")
    /\ Forall2 (fun j r =>
                  decoded_from [Some "related-1;request-0;offer-1";
                                Some "related-0;request-2;offer-1";
                                Some "related-0;request-1;offer-1"]
                               j (snd r))
               (seq 0 (length decoded)) decoded
    /\ index Samples.three_rows_cleaned
       = select mask (index Samples.three_rows)
    /\ columns Samples.three_rows_cleaned
       = on_columns (select_series mask)
           (fields Samples.three_rows ++ pruned decoded)
    /\ Forall (fun c => exists l,
                 snd c = IntCol l
                 /\ forall z, In z l -> z = 0%Z \/ z = 1%Z)
              (category_columns Samples.three_rows
                 Samples.three_rows_cleaned).
Proof.
  exact (category_columns_hold_clamped_tokens Samples.three_rows
           Samples.three_rows_after Samples.three_rows_cleaned _ _
           eq_refl eq_refl).
Defined.

(** X19.  A token made of a name without hyphen, a hyphen and one digit is
    read as the specification reads it: the name is the column name, the
    digit 0 gives 0 and every other digit gives 1. *)
Theorem hyphen_free_token_decodes name d z :
  mentions "-" name = false ->
  name_digit_decoding name d = Some z ->
  token_name (name ++ String "-" (String d EmptyString)) = name
  /\ decode_clamp (name ++ String "-" (String d EmptyString)) = Ok z.
Proof.
  intros Hname Hz. unfold name_digit_decoding in Hz.
  destruct (digit_char d) eqn:Hd; [|discriminate Hz]. injection Hz as <-.
  split.
  - unfold token_name. now rewrite (split_append _ _ _ Hname).
  - exact (name_digit_decode name d Hname Hd).
Qed.

Lemma hyphen_free_token_decodes_witness :
  token_name "request-2" = "request" /\ decode_clamp "request-2" = Ok 1%Z.
Proof.
  exact (hyphen_free_token_decodes "request" "2"%char 1%Z eq_refl eq_refl).
Defined.
